(** * Advanced Audio Tracks Transcode / Rename / Remove: a shallow embedding

    This development embeds the Tdarr plugin
    [Plugins/advanced_audio_tracks_transcode_rename_remove.js] and states the
    properties of its rule engine over the embedding.

    Modelling conventions.
    - JavaScript strings are [string]; the text handled by the plugin (codec
      names, selectors, tags, rule documents) is taken to be ASCII, so that a
      character is one code unit and case mapping acts on the letters A-Z/a-z.
      A character outside ASCII is its UTF-8 byte sequence, as are the two
      sanitisation characters the plugin writes (U+201A and U+2033); [btoa]
      reads these sequences back as code points.
    - Numbers of rule documents and of probe data are integers ([Z]), in
      the range where a double is exact (up to 2^53 in absolute value);
      [NaN] is [None].  A value of the probe data that the probe may write
      as a number or as a text ([bit_rate]) is a [value].
    - A call that raises in JavaScript is the [Throws] outcome of the
      [result] monad.
    - The diagnostic [infoLog] text is not part of the model. *)

From Stdlib Require Import ZArith List String Ascii Bool Lia DecimalString.
From Stdlib Require DecimalPos.
Import ListNotations.
Open Scope string_scope.
Open Scope Z_scope.

(** ** Outcomes of calls that may raise *)

Inductive result (A : Type) : Type :=
| Ok (a : A)
| Throws (msg : string).
Arguments Ok {A} a.
Arguments Throws {A} msg.

Definition bind {A B : Type} (m : result A) (k : A -> result B) : result B :=
  match m with
  | Ok a => k a
  | Throws e => Throws e
  end.

Notation "x <- m ;; k" := (bind m (fun x => k))
  (at level 61, m at next level, right associativity).

(** ** JavaScript string built-ins used by the plugin *)

Module Js.

Definition lowerChar (c : ascii) : ascii :=
  let n := nat_of_ascii c in
  if andb (Nat.leb 65 n) (Nat.leb n 90) then ascii_of_nat (n + 32) else c.

Definition upperChar (c : ascii) : ascii :=
  let n := nat_of_ascii c in
  if andb (Nat.leb 97 n) (Nat.leb n 122) then ascii_of_nat (n - 32) else c.

Fixpoint mapChars (f : ascii -> ascii) (s : string) : string :=
  match s with
  | EmptyString => EmptyString
  | String c s' => String (f c) (mapChars f s')
  end.

(** [s.toLowerCase()], [s.toUpperCase()] *)
Definition toLowerCase : string -> string := mapChars lowerChar.
Definition toUpperCase : string -> string := mapChars upperChar.

(** [s.startsWith(p)] *)
Definition startsWith (s p : string) : bool := String.prefix p s.

(** [s.slice(n)] for [0 <= n] *)
Fixpoint slice (n : nat) (s : string) : string :=
  match n, s with
  | O, _ => s
  | S _, EmptyString => EmptyString
  | S k, String _ s' => slice k s'
  end.

(** [s.includes(sub)] *)
Fixpoint includes (s sub : string) : bool :=
  if String.prefix sub s then true
  else match s with
       | EmptyString => false
       | String _ s' => includes s' sub
       end.

(** GetSubstitution of ECMA-262 for a string search value: there are no
    captures, so only [$$], [$&], [$`] and [$'] are special in the
    replacement text. *)
Fixpoint getSubstitution (matched pre post templ : string) : string :=
  match templ with
  | EmptyString => EmptyString
  | String c t =>
      if Ascii.eqb c "$" then
        match t with
        | EmptyString => String c EmptyString
        | String d rest =>
            if Ascii.eqb d "$" then String "$" (getSubstitution matched pre post rest)
            else if Ascii.eqb d "&" then matched ++ getSubstitution matched pre post rest
            else if Ascii.eqb d "`" then pre ++ getSubstitution matched pre post rest
            else if Ascii.eqb d "'" then post ++ getSubstitution matched pre post rest
            else String c (getSubstitution matched pre post t)
        end
      else String c (getSubstitution matched pre post t)
  end.

(** The scan of [s.replaceAll(find, repl)]: [pre] is the text of the
    subject before the current position, [skip] the number of characters
    of the current occurrence still to pass over. *)
Fixpoint replaceScan (find repl pre s : string) (skip : nat) : string :=
  match s with
  | EmptyString =>
      match find with
      | EmptyString => getSubstitution find pre EmptyString repl
      | _ => EmptyString
      end
  | String c s' =>
      match skip with
      | S k => replaceScan find repl (pre ++ String c EmptyString) s' k
      | O =>
          if String.prefix find s then
            let out := getSubstitution find pre (slice (String.length find) s) repl in
            match String.length find with
            | O => out ++ String c (replaceScan find repl (pre ++ String c EmptyString) s' O)
            | S k => out ++ replaceScan find repl (pre ++ String c EmptyString) s' k
            end
          else String c (replaceScan find repl (pre ++ String c EmptyString) s' O)
      end
  end.

(** [s.replaceAll(find, repl)] with a string [find] *)
Definition replaceAll (s find repl : string) : string :=
  replaceScan find repl EmptyString s O.

(** [arr.join(sep)] *)
Definition join (sep : string) (l : list string) : string := String.concat sep l.

(** Number-to-string conversion of an integer *)
Definition numToString (z : Z) : string := NilZero.string_of_int (Z.to_int z).

Definition natToString (n : nat) : string := numToString (Z.of_nat n).

(** [(n / 1000).toString()] for an integer [n] (exact for |n| < 10^15):
    the quotient printed with its at most three decimals, trailing zeros
    removed. *)
Definition thousandthsToString (n : Z) : string :=
  let a := Z.abs n in
  let q := a / 1000 in
  let r := a mod 1000 in
  let sign := if n <? 0 then "-" else EmptyString in
  let frac :=
    if r =? 0 then EmptyString
    else if r mod 100 =? 0 then "." ++ numToString (r / 100)
    else if r mod 10 =? 0 then
      "." ++ numToString (r / 100) ++ numToString ((r / 10) mod 10)
    else "." ++ numToString (r / 100) ++ numToString ((r / 10) mod 10)
             ++ numToString (r mod 10) in
  sign ++ numToString q ++ frac.

(** *** [parseInt(s)] with no radix argument *)

Definition isWhiteSpace (c : ascii) : bool :=
  let n := nat_of_ascii c in
  orb (Nat.eqb n 32) (andb (Nat.leb 9 n) (Nat.leb n 13)).

Fixpoint trimStart (s : string) : string :=
  match s with
  | String c s' => if isWhiteSpace c then trimStart s' else s
  | EmptyString => s
  end.

Definition digitValue (c : ascii) : option Z :=
  let n := nat_of_ascii c in
  if andb (Nat.leb 48 n) (Nat.leb n 57) then Some (Z.of_nat (n - 48))
  else if andb (Nat.leb 97 n) (Nat.leb n 122) then Some (Z.of_nat (n - 87))
  else if andb (Nat.leb 65 n) (Nat.leb n 90) then Some (Z.of_nat (n - 55))
  else None.

(** Digits of the longest prefix valid in [radix]; [None] when it is empty. *)
Fixpoint parseDigits (radix : Z) (acc : option Z) (s : string) : option Z :=
  match s with
  | EmptyString => acc
  | String c s' =>
      match digitValue c with
      | Some d =>
          if d <? radix then
            parseDigits radix
              (Some (match acc with Some a => a * radix + d | None => d end)) s'
          else acc
      | None => acc
      end
  end.

Definition parseInt (s : string) : option Z :=
  let t := trimStart s in
  let '(neg, t) :=
    match t with
    | String c t' =>
        if Ascii.eqb c "-" then (true, t')
        else if Ascii.eqb c "+" then (false, t')
        else (false, t)
    | EmptyString => (false, t)
    end in
  let '(radix, t) :=
    if orb (String.prefix "0x" t) (String.prefix "0X" t)
    then (16, slice 2 t) else (10, t) in
  match parseDigits radix None t with
  | Some v => Some (if neg then - v else v)
  | None => None
  end.

(** *** The number a text converts to in a comparison *)

Fixpoint trimEnd (s : string) : string :=
  match s with
  | EmptyString => EmptyString
  | String c s' =>
      match trimEnd s' with
      | EmptyString => if isWhiteSpace c then EmptyString else String c EmptyString
      | t => String c t
      end
  end.

(** The value of a text made of decimal digits only; [None] otherwise. *)
Fixpoint decimalDigits (acc : option Z) (s : string) : option Z :=
  match s with
  | EmptyString => acc
  | String c s' =>
      let n := nat_of_ascii c in
      if andb (Nat.leb 48 n) (Nat.leb n 57) then
        decimalDigits
          (Some (match acc with Some a => a * 10 | None => 0 end + Z.of_nat (n - 48))) s'
      else None
  end.

(** StringToNumber of ECMA-262 on the integer literals: the text without
    the white space around it is empty (the number 0) or an optionally
    signed run of decimal digits; any other text is [NaN].  Literals with
    a fraction, an exponent or a radix prefix denote numbers too, but the
    probe writes none of them. *)
Definition stringToNumber (s : string) : option Z :=
  match trimEnd (trimStart s) with
  | EmptyString => Some 0
  | String c t' as t =>
      if Ascii.eqb c "-" then option_map Z.opp (decimalDigits None t')
      else if Ascii.eqb c "+" then decimalDigits None t'
      else decimalDigits None t
  end.

End Js.

(** ** Values of parsed JSON documents, with JavaScript's view of them *)

#[warnings="-register-all"]
Inductive value : Type :=
| VUndefined
| VNull
| VBool (b : bool)
| VNum (n : Z)
| VStr (s : string)
| VArr (items : list value)
| VObj (fields : list (string * value)).

Module Json.

(** [typeof v] *)
Definition typeof (v : value) : string :=
  match v with
  | VUndefined => "undefined"
  | VNull | VArr _ | VObj _ => "object"
  | VBool _ => "boolean"
  | VNum _ => "number"
  | VStr _ => "string"
  end.

(** [Array.isArray(v)] *)
Definition isArray (v : value) : bool :=
  match v with VArr _ => true | _ => false end.

(** The elements of an array *)
Definition items (v : value) : list value :=
  match v with VArr l => l | _ => [] end.

(** Truthiness of [v] in a condition *)
Definition truthy (v : value) : bool :=
  match v with
  | VUndefined | VNull => false
  | VBool b => b
  | VNum n => negb (n =? 0)
  | VStr s => negb (String.eqb s EmptyString)
  | VArr _ | VObj _ => true
  end.

Fixpoint lookup (k : string) (fields : list (string * value)) : option value :=
  match fields with
  | [] => None
  | (k', v) :: rest => if String.eqb k k' then Some v else lookup k rest
  end.

(** [Object.entries(v)]: the fields of an object in enumeration order,
    the indexed items of an array. *)
Definition entries (v : value) : list (string * value) :=
  match v with
  | VObj fields => fields
  | VArr items =>
      combine (map Js.natToString (seq 0 (List.length items))) items
  | _ => []
  end.

(** The built-in [hasOwnProperty] applied to [v] and [k]: whether [k] is an
    own property of an object or an array.  The method call
    [v.hasOwnProperty(k)] reaches the built-in unless [v] has an own
    property of that name itself, see [shadowed]. *)
Definition hasOwnProperty (v : value) (k : string) : bool :=
  match v with
  | VObj fields => match lookup k fields with Some _ => true | None => false end
  | VArr items =>
      orb (String.eqb k "length")
          (match lookup k (entries v) with Some _ => true | None => false end)
  | _ => false
  end.

(** Whether the property read [v.hasOwnProperty] finds an own property of
    the document, not the built-in: such a property holds a JSON value, and
    calling it raises [TypeError: <v>.hasOwnProperty is not a function]. *)
Definition shadowed (v : value) : bool := hasOwnProperty v "hasOwnProperty".

(** The property read [v.k] (or [v[k]]) *)
Definition prop (v : value) (k : string) : value :=
  match v with
  | VObj fields => match lookup k fields with Some x => x | None => VUndefined end
  | VArr items =>
      if String.eqb k "length" then VNum (Z.of_nat (List.length items))
      else match lookup k (entries v) with Some x => x | None => VUndefined end
  | _ => VUndefined
  end.

(** The assignment [v.k = x] on an object that has the property *)
Fixpoint setField (k : string) (x : value) (fields : list (string * value))
  : list (string * value) :=
  match fields with
  | [] => [(k, x)]
  | (k', v) :: rest =>
      if String.eqb k k' then (k', x) :: rest else (k', v) :: setField k x rest
  end.

Definition setProp (v : value) (k : string) (x : value) : value :=
  match v with
  | VObj fields => VObj (setField k x fields)
  | _ => v
  end.

(** Strict equality [a === b]; two distinct arrays or objects are never
    equal. *)
Definition strictEq (a b : value) : bool :=
  match a, b with
  | VUndefined, VUndefined => true
  | VNull, VNull => true
  | VBool x, VBool y => Bool.eqb x y
  | VNum x, VNum y => x =? y
  | VStr x, VStr y => String.eqb x y
  | _, _ => false
  end.

(** [arr.includes(s)] for a string [s] *)
Definition includesStr (items : list value) (s : string) : bool :=
  existsb (fun v => strictEq v (VStr s)) items.

(** String conversion of a value, as in [text.replaceAll(find, v)] *)
Fixpoint toString (v : value) : string :=
  match v with
  | VUndefined => "undefined"
  | VNull => "null"
  | VBool true => "true"
  | VBool false => "false"
  | VNum n => Js.numToString n
  | VStr s => s
  | VArr items =>
      (fix go (l : list value) : string :=
         match l with
         | [] => EmptyString
         | x :: r =>
             (match x with
              | VUndefined | VNull => EmptyString
              | _ => toString x
              end) ++ match r with [] => EmptyString | _ => "," ++ go r end
         end) items
  | VObj _ => "[object Object]"
  end.

Definition dquote : string := String (ascii_of_nat 34) EmptyString.
Definition backslash : string := String (ascii_of_nat 92) EmptyString.

Definition hexDigit (n : nat) : string :=
  String (ascii_of_nat (if Nat.ltb n 10 then 48 + n else 87 + n)) EmptyString.

(** Escaping of one character by [JSON.stringify] *)
Definition escapeChar (c : ascii) : string :=
  let n := nat_of_ascii c in
  if Nat.eqb n 34 then backslash ++ dquote
  else if Nat.eqb n 92 then backslash ++ backslash
  else if Nat.eqb n 8 then backslash ++ "b"
  else if Nat.eqb n 12 then backslash ++ "f"
  else if Nat.eqb n 10 then backslash ++ "n"
  else if Nat.eqb n 13 then backslash ++ "r"
  else if Nat.eqb n 9 then backslash ++ "t"
  else if Nat.ltb n 32 then
    backslash ++ "u00" ++ hexDigit (Nat.div n 16) ++ hexDigit (Nat.modulo n 16)
  else String c EmptyString.

Fixpoint escapeChars (s : string) : string :=
  match s with
  | EmptyString => EmptyString
  | String c s' => escapeChar c ++ escapeChars s'
  end.

Definition quote (s : string) : string := dquote ++ escapeChars s ++ dquote.

(** [JSON.stringify(v)] without indentation *)
Fixpoint stringify (v : value) : string :=
  match v with
  | VUndefined | VNull => "null"
  | VBool true => "true"
  | VBool false => "false"
  | VNum n => Js.numToString n
  | VStr s => quote s
  | VArr items =>
      "[" ++
      (fix go (l : list value) : string :=
         match l with
         | [] => EmptyString
         | x :: r => stringify x ++ match r with [] => EmptyString | _ => "," ++ go r end
         end) items ++ "]"
  | VObj fields =>
      "{" ++
      (fix go (first : bool) (l : list (string * value)) : string :=
         match l with
         | [] => EmptyString
         | (k, x) :: r =>
             match x with
             | VUndefined => go first r
             | _ => (if first then EmptyString else ",")
                      ++ quote k ++ ":" ++ stringify x ++ go false r
             end
         end) true fields ++ "}"
  end.

(** The number a value converts to in a relational comparison (ToNumber
    of ECMA-262): an array or an object by way of its string conversion. *)
Definition toNumber (v : value) : option Z :=
  match v with
  | VUndefined => None
  | VNull => Some 0
  | VBool b => Some (if b then 1 else 0)
  | VNum n => Some n
  | VStr s => Js.stringToNumber s
  | VArr _ | VObj _ => Js.stringToNumber (toString v)
  end.

(** *** [btoa]: base64 of a text whose characters are at most U+00FF *)

Definition b64Alphabet : string :=
  "ABCDEFGHIJKLMNOPQRSTUVWXYZabcdefghijklmnopqrstuvwxyz0123456789+/".

Definition b64Char (n : nat) : string :=
  match String.get n b64Alphabet with
  | Some c => String c EmptyString
  | None => EmptyString
  end.

(** Base64 of a sequence of bytes *)
Fixpoint base64 (s : string) : string :=
  match s with
  | EmptyString => EmptyString
  | String a EmptyString =>
      let x := nat_of_ascii a in
      b64Char (Nat.div x 4) ++ b64Char (Nat.modulo x 4 * 16) ++ "=="
  | String a (String b EmptyString) =>
      let x := nat_of_ascii a in
      let y := nat_of_ascii b in
      b64Char (Nat.div x 4)
        ++ b64Char (Nat.modulo x 4 * 16 + Nat.div y 16)
        ++ b64Char (Nat.modulo y 16 * 4) ++ "="
  | String a (String b (String c r)) =>
      let x := nat_of_ascii a in
      let y := nat_of_ascii b in
      let z := nat_of_ascii c in
      b64Char (Nat.div x 4)
        ++ b64Char (Nat.modulo x 4 * 16 + Nat.div y 16)
        ++ b64Char (Nat.modulo y 16 * 4 + Nat.div z 64)
        ++ b64Char (Nat.modulo z 64) ++ base64 r
  end.

(** The code points of a text, one byte each, when all are at most U+00FF:
    an ASCII character is its byte, U+0080 to U+00FF are the two-byte
    sequences led by 0xC2 and 0xC3; any other sequence is a character
    above U+00FF. *)
Fixpoint latin1 (s : string) : option string :=
  match s with
  | EmptyString => Some EmptyString
  | String a r =>
      let x := nat_of_ascii a in
      if Nat.ltb x 128 then option_map (String a) (latin1 r)
      else
        match r with
        | String b r' =>
            let y := nat_of_ascii b in
            if andb (orb (Nat.eqb x 194) (Nat.eqb x 195))
                    (andb (Nat.leb 128 y) (Nat.leb y 191))
            then option_map (String (ascii_of_nat ((x - 192) * 64 + (y - 128))))
                   (latin1 r')
            else None
        | EmptyString => None
        end
  end.

(** [btoa(s)]: raises [InvalidCharacterError] on a character above
    U+00FF. *)
Definition btoa (s : string) : result string :=
  match latin1 s with
  | Some bytes => Ok (base64 bytes)
  | None => Throws "Invalid character"
  end.

End Json.

(** ** The rule document validator: [validateTranscodeRules] *)

Module Validator.
Import Json.

(** [JSON.parse(jsonString)]: the parsed document, or the message of the
    exception it raised. *)
Inductive parsed : Type :=
| ParseError (message : string)
| Parsed (document : value).

(** An early [return msg] of the validator, or falling through. *)
Notation "'If' c 'Return' m ;; k" := (if c then Some m else k)
  (at level 10, c at level 99, m at level 99, k at level 200).

Definition idx (i : nat) : string := Js.natToString i.

Definition isObject (v : value) : bool :=
  andb (String.eqb (typeof v) "object") (negb (strictEq v VNull)).

(** What the validator's [catch] returns when [<expr>.hasOwnProperty(...)]
    is called on a [shadowed] object.  Each object is tested for it where
    the source first calls the method on it. *)
Definition notAFunction (expr : string) : string :=
  "Invalid JSON: " ++ expr ++ ".hasOwnProperty is not a function".

(** The [for (let flag in dispositions)] loop of an operation *)
Fixpoint validateFlags (kind : string) (i j : nat)
    (flags : list (string * value)) : option string :=
  match flags with
  | [] => None
  | (flag, v) :: rest =>
      If negb (String.eqb (typeof v) "boolean")
      Return "'" ++ flag ++ "' property in 'dispositions' object in '" ++ kind
             ++ "' operation at index " ++ idx j ++ " rule at index " ++ idx i
             ++ " must be a boolean." ;;
      validateFlags kind i j rest
  end.

Definition validateOperationDispositions (kind : string) (i j : nat)
    (body : value) : option string :=
  if hasOwnProperty body "dispositions" then
    If negb (isObject (prop body "dispositions"))
    Return "'dispositions' property in '" ++ kind ++ "' operation at index "
           ++ idx j ++ " in rule at index " ++ idx i ++ " must be an object." ;;
    validateFlags kind i j (entries (prop body "dispositions"))
  else None.

(** The body of the loop over [operations], for the operation at [j] *)
Definition validateOperation (i j : nat) (operation : value) : option string :=
  let at_ij := " operation at index " ++ idx j ++ " in rule at index " ++ idx i in
  If negb (isObject operation)
  Return "Operation at index " ++ idx j ++ " in rule at index " ++ idx i
         ++ " is not an object." ;;
  If shadowed operation Return notAFunction "operation" ;;
  if hasOwnProperty operation "copy" then
    let copy := prop operation "copy" in
    If negb (isObject copy)
    Return "'copy'" ++ at_ij ++ " must be an object." ;;
    If shadowed copy Return notAFunction "operation.copy" ;;
    If andb (hasOwnProperty copy "title")
            (negb (String.eqb (typeof (prop copy "title")) "string"))
    Return "'title' property in 'copy'" ++ at_ij ++ " must be a string." ;;
    validateOperationDispositions "copy" i j copy
  else if hasOwnProperty operation "transcode" then
    let transcode := prop operation "transcode" in
    If negb (isObject transcode)
    Return "'transcode'" ++ at_ij ++ " must be an object." ;;
    If shadowed transcode Return notAFunction "operation.transcode" ;;
    If negb (hasOwnProperty transcode "codec")
    Return "'transcode'" ++ at_ij ++ " is missing 'codec' property." ;;
    If negb (String.eqb (typeof (prop transcode "codec")) "string")
    Return "'codec' property in 'transcode'" ++ at_ij ++ " must be a string." ;;
    If andb (hasOwnProperty transcode "channels")
            (negb (String.eqb (typeof (prop transcode "channels")) "number"))
    Return "'channels' property in 'transcode'" ++ at_ij ++ " must be a number." ;;
    If andb (hasOwnProperty transcode "bitrate")
            (negb (String.eqb (typeof (prop transcode "bitrate")) "number"))
    Return "'bitrate' property in 'transcode'" ++ at_ij ++ " must be a number." ;;
    If andb (hasOwnProperty transcode "title")
            (negb (String.eqb (typeof (prop transcode "title")) "string"))
    Return "'title' property in 'transcode'" ++ at_ij ++ " must be a string." ;;
    match validateOperationDispositions "transcode" i j transcode with
    | Some msg => Some msg
    | None =>
        If andb (hasOwnProperty transcode "filters")
                (negb (String.eqb (typeof (prop transcode "filters")) "string"))
        Return "'filters' property in 'transcode'" ++ at_ij ++ " must be a string." ;;
        None
    end
  else
    Some ("Operation at index " ++ idx j ++ " in rule at index " ++ idx i
          ++ " must have either 'copy' or 'transcode' property.").

(** [for (let j = 0; j < operations.length; j++)], entered at index [j] *)
Fixpoint validateOperations (i j : nat) (operations : list value) : option string :=
  match operations with
  | [] => None
  | operation :: rest =>
      match validateOperation i j operation with
      | Some msg => Some msg
      | None => validateOperations i (S j) rest
      end
  end.

Definition stringOrArray (v : value) : bool :=
  orb (String.eqb (typeof v) "string") (isArray v).

(** The test on [match.codecs]; [codecs.startsWith] raises a TypeError on
    a value that is neither an array nor a string, which the validator's
    [catch] turns into its return value. *)
Definition validateCodecs (i : nat) (codecs : value) : option string :=
  match codecs with
  | VArr _ => None
  | VStr s =>
      If andb (negb (String.eqb s "*")) (negb (Js.startsWith s "!"))
      Return "'codecs' property in rule at index " ++ idx i
             ++ " must be an array, '*', or '!codec'." ;;
      None
  | VUndefined | VNull =>
      Some ("Invalid JSON: Cannot read properties of " ++ toString codecs
            ++ " (reading 'startsWith')")
  | _ => Some "Invalid JSON: match.codecs.startsWith is not a function"
  end.

Definition selectorError (field : string) (i : nat) : string :=
  "'" ++ field ++ "' property in rule at index " ++ idx i
  ++ " must be a string or an array.".

(** The checks on [rule.match] up to the title block *)
Definition validateMatch (i : nat) (rule : value) : option string :=
  let match_ := prop rule "match" in
  If negb (isObject rule)
  Return "Rule at index " ++ idx i ++ " is not an object." ;;
  If shadowed rule Return notAFunction "rule" ;;
  If orb (negb (hasOwnProperty rule "match")) (negb (hasOwnProperty rule "operations"))
  Return "Rule at index " ++ idx i ++ " is missing 'match' or 'operations' property." ;;
  If negb (isObject match_)
  Return "Match property in rule at index " ++ idx i ++ " is not an object." ;;
  If shadowed match_ Return notAFunction "match" ;;
  If negb (hasOwnProperty match_ "codecs")
  Return "Match property in rule at index " ++ idx i ++ " is missing 'codecs' property." ;;
  match validateCodecs i (prop match_ "codecs") with
  | Some msg => Some msg
  | None =>
      If andb (hasOwnProperty match_ "channels") (negb (stringOrArray (prop match_ "channels")))
      Return selectorError "channels" i ;;
      If andb (hasOwnProperty match_ "bitrate") (negb (stringOrArray (prop match_ "bitrate")))
      Return selectorError "bitrate" i ;;
      If andb (hasOwnProperty match_ "languages") (negb (stringOrArray (prop match_ "languages")))
      Return selectorError "languages" i ;;
      If andb (hasOwnProperty match_ "dispositions") (negb (isObject (prop match_ "dispositions")))
      Return "'dispositions' property in rule at index " ++ idx i ++ " must be an object." ;;
      None
  end.

(** The checks of the [if (match.hasOwnProperty('title'))] block *)
Definition validateTitle (i : nat) (match_ : value) : option string :=
  if hasOwnProperty match_ "title" then
    let title := prop match_ "title" in
    If negb (isObject title)
    Return "'title' property in rule at index " ++ idx i ++ " must be an object." ;;
    If shadowed title Return notAFunction "match.title" ;;
    If negb (hasOwnProperty title "pattern")
    Return "'title' property in rule at index " ++ idx i ++ " is missing 'pattern' property." ;;
    If negb (String.eqb (typeof (prop title "pattern")) "string")
    Return "'pattern' property in rule at index " ++ idx i ++ " must be a string." ;;
    If andb (hasOwnProperty title "caseSensitive")
            (negb (String.eqb (typeof (prop title "caseSensitive")) "boolean"))
    Return "'caseSensitive' property in rule at index " ++ idx i ++ " must be a boolean." ;;
    None
  else None.

(** [match.title.pattern = match.title.pattern.replaceAll("\\\\", "\\")]:
    the rule with every doubled backslash of its title pattern made
    single. *)
Definition normalizePattern (rule : value) : value :=
  let match_ := prop rule "match" in
  if hasOwnProperty match_ "title" then
    let title := prop match_ "title" in
    let pattern := toString (prop title "pattern") in
    let pattern' := Js.replaceAll pattern (backslash ++ backslash) backslash in
    setProp rule "match"
      (setProp match_ "title" (setProp title "pattern" (VStr pattern')))
  else rule.

(** One turn of the loop over [rules]: the message returned, or the rule
    as the loop leaves it. *)
Definition validateRule (i : nat) (rule : value) : string + value :=
  match validateMatch i rule with
  | Some msg => inl msg
  | None =>
      match validateTitle i (prop rule "match") with
      | Some msg => inl msg
      | None =>
          let rule' := normalizePattern rule in
          let operations := prop rule "operations" in
          if negb (isArray operations) then
            inl ("Operations property in rule at index " ++ idx i ++ " must be an array.")
          else
            match validateOperations i 0 (items operations) with
            | Some msg => inl msg
            | None => inr rule'
            end
      end
  end.

(** [for (let i = 0; i < rules.length; i++)], entered at index [i] *)
Fixpoint validateRules (i : nat) (rules : list value) : string + list value :=
  match rules with
  | [] => inr []
  | rule :: rest =>
      match validateRule i rule with
      | inl msg => inl msg
      | inr rule' =>
          match validateRules (S i) rest with
          | inl msg => inl msg
          | inr rest' => inr (rule' :: rest')
          end
      end
  end.

(** [validateTranscodeRules(jsonString)], given the outcome of
    [JSON.parse(jsonString)]: an error message (a string) or the rules. *)
Definition validateTranscodeRules (doc : parsed) : string + list value :=
  match doc with
  | ParseError message => inl ("Invalid JSON: " ++ message)
  | Parsed rules =>
      if negb (isArray rules) then inl "Expected a JSON array of rules."
      else validateRules 0 (items rules)
  end.

End Validator.

(** ** Probe data of a file *)

(** A stream of [file.ffProbeData.streams].  [tag_title] and [tag_language]
    are [tags.title] and [tags.language], absent also when [tags] is; an
    absent [codec_name] of a subtitle stream is the empty string, which the
    plugin's test treats alike.  [bit_rate] is the value the probe wrote,
    a number or the text of one, when it wrote any. *)
Record Stream : Type := {
  index : Z;
  codec_type : string;
  codec_name : string;
  channels : Z;
  channel_layout : option string;
  bit_rate : option value;
  tag_title : option string;
  tag_language : option string;
  disposition : list (string * value)
}.

Record ProbeData : Type := {
  streams : option (list Stream);
  (** [format.tags.COPYRIGHT], absent also when [format] or [tags] is *)
  COPYRIGHT : option string
}.

Record File : Type := {
  container : string;
  ffProbeData : option ProbeData
}.

(** The plugin inputs after [lib.loadDefaultValues]; [transcodeRules] is
    given by the outcome of parsing it. *)
Record Inputs : Type := {
  transcodeRules : Validator.parsed;
  dryRun : string
}.

Record Response : Type := {
  processFile : bool;
  responseContainer : string;
  handBrakeMode : bool;
  FFmpegMode : bool;
  preset : option string
}.

(** ** The entries of [audioTracksCommands] *)

Inductive instr : Type :=
| MapCopy (input output : nat)
| Map (input : nat)
| Codec (output : nat) (codec : string)
| Channels (output : nat) (count : Z)
| Bitrate (output : nat) (bps : Z)
| Title (output : nat) (title : string)
| Disposition (output : nat) (flags : string)
| Filter (output : nat) (filters : string).

(** The text pushed for each entry *)
Definition render (c : instr) : string :=
  let n := Js.natToString in
  match c with
  | MapCopy i o => "-map 0:a:" ++ n i ++ " -c:a:" ++ n o ++ " copy"
  | Map i => "-map 0:a:" ++ n i
  | Codec o codec => "-c:a:" ++ n o ++ " " ++ codec
  | Channels o count => "-ac:a:" ++ n o ++ " " ++ Js.numToString count
  | Bitrate o bps => "-b:a:" ++ n o ++ " " ++ Js.numToString bps
  | Title o title =>
      "-metadata:s:a:" ++ n o ++ " " ++ Json.dquote ++ "title=" ++ title ++ Json.dquote
  | Disposition o flags => "-disposition:a:" ++ n o ++ " " ++ flags
  | Filter o filters =>
      "-filter:a:" ++ n o ++ " " ++ Json.dquote ++ filters ++ Json.dquote
  end.

Fixpoint foldM {A B : Type} (f : B -> A -> result B) (l : list A) (b : B) : result B :=
  match l with
  | [] => Ok b
  | a :: rest => b' <- f b a ;; foldM f rest b'
  end.

(** ** The plugin *)

Module Plugin.
Import Json.

(** Defaults of an optional text: [x ? x : d] *)
Definition orDefault (x : option string) (d : string) : string :=
  match x with
  | Some s => if String.eqb s EmptyString then d else s
  | None => d
  end.

(** [codecChannelsLimits[codec]] and [codecBitrateLimits[codec]] *)
Definition codecChannelsLimits (codec : string) : option Z :=
  if String.eqb codec "ac3" then Some 6
  else if String.eqb codec "mp3" then Some 2
  else None.

Definition codecBitrateLimits (codec : string) : option Z :=
  if String.eqb codec "ac3" then Some 640000
  else if String.eqb codec "mp3" then Some 320000
  else None.

(** [limits[codec] && n > limits[codec]] *)
Definition exceeds (limit : option Z) (n : Z) : bool :=
  match limit with Some l => l <? n | None => false end.

(** A comparison of numbers, false when a side is [undefined] or [NaN] *)
Definition compareWith (op : Z -> Z -> bool) (a b : option Z) : bool :=
  match a, b with
  | Some x, Some y => op x y
  | _, _ => false
  end.

(** [a === b] for a value [a] and a number [b]: no conversion is made, a
    text is never equal to a number. *)
Definition strictEqNumber (a : value) (b : option Z) : bool :=
  match a with
  | VNum x => compareWith Z.eqb (Some x) b
  | _ => false
  end.

(** A property of the probe data when present, else [undefined] *)
Definition orUndefined (x : option value) : value :=
  match x with Some v => v | None => VUndefined end.

(** [matchesIntCondition(value, condition)]: the relational operators
    convert [value] to a number, the equality does not. *)
Definition matchesIntCondition (value_ : value) (condition : value) : result bool :=
  match condition with
  | VStr c =>
      Ok (if Js.startsWith c "<=" then
            compareWith Z.leb (toNumber value_) (Js.parseInt (Js.slice 2 c))
          else if Js.startsWith c ">=" then
            compareWith Z.geb (toNumber value_) (Js.parseInt (Js.slice 2 c))
          else if Js.startsWith c "<" then
            compareWith Z.ltb (toNumber value_) (Js.parseInt (Js.slice 1 c))
          else if Js.startsWith c ">" then
            compareWith Z.gtb (toNumber value_) (Js.parseInt (Js.slice 1 c))
          else strictEqNumber value_ (Js.parseInt c))
  | VUndefined | VNull =>
      Throws ("Cannot read properties of " ++ toString condition ++ " (reading 'startsWith')")
  | _ => Throws "condition.startsWith is not a function"
  end.

(** [for (let c of conditions) if (!matchesIntCondition(value, c)) return false] *)
Fixpoint allConditions (value_ : value) (conditions : list value) : result bool :=
  match conditions with
  | [] => Ok true
  | c :: rest =>
      b <- matchesIntCondition value_ c ;;
      if b then allConditions value_ rest else Ok false
  end.

(** [Array.isArray(x) ? x : [x]] *)
Definition asArray (x : value) : list value :=
  if isArray x then items x else [x].

(** [getFancyChannels(channelsCount)] *)
Definition getFancyChannels (channelsCount : value) : string :=
  match Js.parseInt (toString channelsCount) with
  | Some n =>
      if n =? 1 then "Mono"
      else if n =? 2 then "Stereo"
      else Js.numToString (n - 1) ++ ".1"
  | None => "NaN.1"
  end.

(** [(parseInt(b) / 1000).toString()] *)
Definition kbps (b : value) : string :=
  match Js.parseInt (toString b) with
  | Some n => Js.thousandthsToString n
  | None => "NaN"
  end.

(** [getDispositionFlags(dispositions)]: the loop with its [isFirstFlag] *)
Fixpoint dispositionFlags (isFirstFlag : bool) (es : list (string * value))
  : list string :=
  match es with
  | [] => []
  | (flag, v) :: rest =>
      (if strictEq v (VBool true)
       then (if isFirstFlag then flag else "+" ++ flag)
       else "-" ++ flag) :: dispositionFlags false rest
  end.

Definition getDispositionFlags (dispositions : value) : string :=
  Js.join EmptyString (dispositionFlags true (entries dispositions)).

(** The capture-group pass of [getNewTrackTitle]:
    [match.slice(1).forEach((group, index) => updateTrackTitle("{" + (index + 1) + "}", group))]
    from [index]; a group that did not take part in the match is
    [undefined]. *)
Fixpoint substituteGroups (newTrackTitle : string) (index_ : nat)
    (groups : list (option string)) : string :=
  match groups with
  | [] => newTrackTitle
  | group :: rest =>
      substituteGroups
        (Js.replaceAll newTrackTitle ("{" ++ Js.natToString (index_ + 1) ++ "}")
           (match group with Some g => g | None => "undefined" end))
        (S index_) rest
  end.

(** [for (const match of trackTitle.matchAll(patternRegExp))] *)
Definition substituteMatches (newTrackTitle : string)
    (matches : list (list (option string))) : string :=
  fold_left (fun t groups => substituteGroups t 0 groups) matches newTrackTitle.

Section Engine.

(** The host's regular expressions:
    [new RegExp(pattern, flags).test(subject)], and the capture groups
    [match.slice(1)] of every match of
    [subject.matchAll(new RegExp(pattern, flags))]. *)
Variable regexTest : string -> string -> string -> result bool.
Variable regexMatchAll :
  string -> string -> string -> result (list (list (option string))).

(** [trackMatches(trackData, matchRule)] *)
Definition trackMatches (trackData : Stream) (matchRule : value) : result bool :=
  let codec := Js.toLowerCase (codec_name trackData) in
  codecFails <-
    match prop matchRule "codecs" with
    | VArr codecs => Ok (negb (includesStr codecs codec))
    | VStr codecs =>
        Ok (andb (negb (String.eqb codecs "*"))
                 (String.eqb codec (Js.toLowerCase (Js.slice 1 codecs))))
    | VUndefined | VNull =>
        Throws ("Cannot read properties of " ++ toString (prop matchRule "codecs")
                ++ " (reading 'slice')")
    | _ => Throws "matchRule.codecs.slice is not a function"
    end ;;
  if codecFails then Ok false else
  channelsOk <-
    (if truthy (prop matchRule "channels")
     then allConditions (VNum (channels trackData)) (asArray (prop matchRule "channels"))
     else Ok true) ;;
  if negb channelsOk then Ok false else
  bitrateOk <-
    (if truthy (prop matchRule "bitrate")
     then allConditions (orUndefined (bit_rate trackData))
            (asArray (prop matchRule "bitrate"))
     else Ok true) ;;
  if negb bitrateOk then Ok false else
  if andb (truthy (prop matchRule "languages"))
          (negb (includesStr (asArray (prop matchRule "languages"))
                   (orDefault (tag_language trackData) "und")))
  then Ok false else
  if andb (truthy (prop matchRule "dispositions"))
          (negb (forallb
                   (fun '(key, v) =>
                      match lookup key (disposition trackData) with
                      | Some x => strictEq x v
                      | None => false
                      end)
                   (entries (prop matchRule "dispositions"))))
  then Ok false else
  if truthy (prop matchRule "title") then
    let title := prop matchRule "title" in
    let trackTitle := orDefault (tag_title trackData) EmptyString in
    found <- regexTest (toString (prop title "pattern"))
               (if truthy (prop title "caseSensitive") then EmptyString else "i")
               trackTitle ;;
    Ok found
  else Ok true.

(** [getNewTrackTitle(track, matchTitle, operation, bitrate)];
    [updateTrackTitle(find, replaceWith)] is [Js.replaceAll] on the
    title built so far. *)
Definition getNewTrackTitle (track : Stream) (matchTitle operation : value)
    (bitrate : option value) : result string :=
  let updateTrackTitle (find replaceWith newTrackTitle : string) :=
    Js.replaceAll newTrackTitle find replaceWith in
  let trackTitle := orDefault (tag_title track) EmptyString in
  let t := toString (prop operation "title") in
  t <- (if truthy matchTitle then
          matches <- regexMatchAll (toString (prop matchTitle "pattern"))
                       (if truthy (prop matchTitle "caseSensitive") then "g" else "gi")
                       trackTitle ;;
          Ok (substituteMatches t matches)
        else Ok t) ;;
  let t := updateTrackTitle "{title}" trackTitle t in
  let trackLanguage := orDefault (tag_language track) "und" in
  let t := updateTrackTitle "{lang}" (Js.toLowerCase trackLanguage) t in
  let t := updateTrackTitle "{LANG}" (Js.toUpperCase trackLanguage) t in
  let t := updateTrackTitle "{i_codec}" (Js.toLowerCase (codec_name track)) t in
  let t := updateTrackTitle "{i_CODEC}" (Js.toUpperCase (codec_name track)) t in
  codecName <-
    (if andb (truthy (prop operation "codec"))
             (negb (strictEq (prop operation "codec") (VStr "copy")))
     then match prop operation "codec" with
          | VStr c => Ok c
          | _ => Throws "codecName.toLowerCase is not a function"
          end
     else Ok (codec_name track)) ;;
  let t := updateTrackTitle "{o_codec}" (Js.toLowerCase codecName) t in
  let t := updateTrackTitle "{o_CODEC}" (Js.toUpperCase codecName) t in
  let t := updateTrackTitle "{i_channels}" (Js.numToString (channels track)) t in
  let t := updateTrackTitle "{i_channels_fancy}"
             (getFancyChannels (VNum (channels track))) t in
  let t := updateTrackTitle "{i_channel_layout}"
             (match channel_layout track with Some l => l | None => "undefined" end) t in
  let outputChannels :=
    if truthy (prop operation "channels") then prop operation "channels"
    else VNum (channels track) in
  let t := updateTrackTitle "{o_channels}" (toString outputChannels) t in
  let t := updateTrackTitle "{o_channels_fancy}" (getFancyChannels outputChannels) t in
  let t :=
    if truthy (orUndefined (bit_rate track)) then
      updateTrackTitle "{i_bitrate_kbps}" (kbps (orUndefined (bit_rate track)))
        (updateTrackTitle "{i_bitrate}" (toString (orUndefined (bit_rate track))) t)
    else t in
  let t :=
    if truthy (orUndefined bitrate) then
      updateTrackTitle "{o_bitrate_kbps}" (kbps (orUndefined bitrate))
        (updateTrackTitle "{o_bitrate}" (toString (orUndefined bitrate)) t)
    else t in
  (* U+201A for the comma, U+2033 for the double quote *)
  let t := Js.replaceAll t "," "‚" in
  let t := Js.replaceAll t dquote "″" in
  Ok t.

(** The loop state of the pass over the audio tracks *)
Record State : Type := {
  audioTracksCommands : list instr;
  inputTrackIndex : nat;
  outputTrackIndex : nat;
  requireTranscode : bool
}.

(** A number of the rule document when present and non-zero, else [d]:
    [x ? x : d] for a field validated as a number. *)
Definition numberOr (x : value) (d : Z) : Z :=
  match x with
  | VNum n => if n =? 0 then d else n
  | _ => d
  end.

(** The title and dispositions entries of a copy or transcode [body] *)
Definition titleCommands (track : Stream) (rule body : value) (bitrate : option value)
    (o : nat) : result (list instr) :=
  if truthy (prop body "title") then
    newTrackTitle <- getNewTrackTitle track (prop (prop rule "match") "title") body bitrate ;;
    Ok [Title o newTrackTitle]
  else Ok [].

Definition dispositionCommands (body : value) (o : nat) : list instr :=
  if truthy (prop body "dispositions")
  then [Disposition o (getDispositionFlags (prop body "dispositions"))]
  else [].

(** The commands one operation pushes, at input index [i] and output
    index [o] *)
Definition operationCommands (track : Stream) (rule operation : value)
    (i o : nat) : result (list instr) :=
  if truthy (prop operation "copy") then
    let copy := prop operation "copy" in
    title <- titleCommands track rule copy (bit_rate track) o ;;
    Ok ([MapCopy i o] ++ title ++ dispositionCommands copy o)%list
  else if truthy (prop operation "transcode") then
    let transcode := prop operation "transcode" in
    targetCodec <-
      match prop transcode "codec" with
      | VStr c => Ok (if String.eqb c "copy" then codec_name track else c)
      | _ => Throws "targetCodec.toUpperCase is not a function"
      end ;;
    let explicitChannels := truthy (prop transcode "channels") in
    let channels0 := numberOr (prop transcode "channels") (channels track) in
    let forceChannels :=
      andb (String.eqb (Js.toLowerCase targetCodec) "aac")
           (andb (6 <? channels track) (negb explicitChannels)) in
    let channels1 := if forceChannels then 8 else channels0 in
    let channelsCommand :=
      if orb explicitChannels
           (orb (negb (channels1 =? channels track))
                (orb (exceeds (codecChannelsLimits targetCodec) channels1) forceChannels))
      then
        [Channels o
           (if exceeds (codecChannelsLimits targetCodec) channels1
            then match codecChannelsLimits targetCodec with Some l => l | None => channels1 end
            else channels1)]
      else [] in
    let explicitBitrate := truthy (prop transcode "bitrate") in
    let explicit := numberOr (prop transcode "bitrate") 0 in
    let clamped :=
      if exceeds (codecBitrateLimits targetCodec) explicit
      then match codecBitrateLimits targetCodec with Some l => l | None => explicit end
      else explicit in
    let bitrate1 := if explicitBitrate then Some (VNum clamped) else bit_rate track in
    let bitrateCommand := if explicitBitrate then [Bitrate o clamped] else [] in
    title <- titleCommands track rule transcode bitrate1 o ;;
    let filtersCommand :=
      if truthy (prop transcode "filters")
      then [Filter o (toString (prop transcode "filters"))]
      else [] in
    Ok ([Map i; Codec o targetCodec] ++ channelsCommand ++ bitrateCommand
          ++ title ++ dispositionCommands transcode o ++ filtersCommand)%list
  else Ok [].

(** The body of [rule.operations.forEach] *)
Definition applyOperation (track : Stream) (rule : value) (st : State)
    (operation : value) : result State :=
  cs <- operationCommands track rule operation
          (inputTrackIndex st) (outputTrackIndex st) ;;
  Ok {| audioTracksCommands := (audioTracksCommands st ++ cs)%list;
        inputTrackIndex := inputTrackIndex st;
        outputTrackIndex := S (outputTrackIndex st);
        requireTranscode := true |}.

(** The body of [transcodeRules.forEach], carrying [ruleMatched] *)
Definition applyRule (track : Stream) (acc : bool * State) (rule : value)
  : result (bool * State) :=
  let '(ruleMatched, st) := acc in
  if ruleMatched then Ok acc else
  matched <- trackMatches track (prop rule "match") ;;
  if negb matched then Ok acc else
  if strictEq (prop (prop rule "operations") "length") (VNum 0)
  then Ok (true, st)
  else
    st' <- foldM (applyOperation track rule) (items (prop rule "operations")) st ;;
    Ok (true, st').

(** The body of [audioTracks.forEach] *)
Definition processTrack (rules : list value) (st : State) (track : Stream)
  : result State :=
  acc <- foldM (applyRule track) rules (false, st) ;;
  let '(ruleMatched, st1) := acc in
  let st2 :=
    if ruleMatched then st1
    else {| audioTracksCommands :=
              (audioTracksCommands st1
                 ++ [MapCopy (inputTrackIndex st1) (outputTrackIndex st1)])%list;
            inputTrackIndex := inputTrackIndex st1;
            outputTrackIndex := S (outputTrackIndex st1);
            requireTranscode := requireTranscode st1 |} in
  Ok {| audioTracksCommands := audioTracksCommands st2;
        inputTrackIndex := S (inputTrackIndex st2);
        outputTrackIndex := outputTrackIndex st2;
        requireTranscode := requireTranscode st2 |}.

Definition initialState : State :=
  {| audioTracksCommands := []; inputTrackIndex := 0;
     outputTrackIndex := 0; requireTranscode := false |}.

(** The pass over [audioTracks] *)
Definition processTracks (rules : list value) (audioTracks : list Stream)
  : result State :=
  foldM (processTrack rules) audioTracks initialState.

(** The response as created on entry *)
Definition initialResponse (file : File) : Response :=
  {| processFile := false;
     responseContainer := "." ++ container file;
     handBrakeMode := false;
     FFmpegMode := true;
     preset := None |}.

(** [pluginWatermark] *)
Definition pluginWatermark (transcodeRules : list value) : result string :=
  encoded <- btoa (stringify (VArr transcodeRules)) ;;
  Ok ("[Tdarr:advanced_audio_transcode_rename_remove:" ++ encoded ++ "]").

(** The [subtitleStreams.forEach((s, idx) => ...)] loop, from [idx] *)
Fixpoint subtitleLoop (idx : nat) (subtitleStreams : list Stream) : string :=
  match subtitleStreams with
  | [] => EmptyString
  | s :: rest =>
      (if andb (negb (String.eqb (codec_name s) EmptyString))
               (negb (String.eqb (codec_name s) "none"))
       then "-map 0:s:" ++ Js.natToString idx ++ " -c:s:" ++ Js.natToString idx ++ " copy "
       else EmptyString) ++ subtitleLoop (S idx) rest
  end.

Definition subtitleCommands (allStreams : list Stream) : string :=
  let cmds :=
    subtitleLoop 0
      (filter (fun s => String.eqb (codec_type s) "subtitle") allStreams) in
  if String.eqb cmds EmptyString then "-sn " else cmds.

(** The command preset of a changed plan *)
Definition buildPreset (allStreams : list Stream) (commands : list instr)
    (copyrightData watermark : string) : string :=
  "," ++ "-map 0:v -c:v copy "
    ++ Js.join " " (map render commands) ++ " "
    ++ subtitleCommands allStreams
    ++ "-metadata " ++ dquote ++ "copyright=" ++ copyrightData ++ watermark ++ dquote.

(** [plugin(file, libraryOptions, inputs)] *)
Definition plugin (file : File) (inputs : Inputs) : result Response :=
  let response := initialResponse file in
  match Validator.validateTranscodeRules (transcodeRules inputs) with
  | inl _ => Ok response
  | inr rules =>
      let dry := String.eqb (dryRun inputs) "true" in
      watermark <- pluginWatermark rules ;;
      match ffProbeData file with
      | None => Ok response
      | Some probe =>
          match streams probe with
          | None => Ok response
          | Some allStreams =>
              let copyrightData := orDefault (COPYRIGHT probe) EmptyString in
              if Js.includes copyrightData watermark then Ok response else
              let audioTracks :=
                filter (fun s => String.eqb (codec_type s) "audio") allStreams in
              if Nat.eqb (List.length audioTracks) 0 then Ok response else
              st <- processTracks rules audioTracks ;;
              let response :=
                if requireTranscode st then
                  {| processFile := true;
                     responseContainer := responseContainer response;
                     handBrakeMode := handBrakeMode response;
                     FFmpegMode := FFmpegMode response;
                     preset := Some (buildPreset allStreams (audioTracksCommands st)
                                       copyrightData watermark) |}
                else response in
              Ok (if dry then
                    {| processFile := false;
                       responseContainer := responseContainer response;
                       handBrakeMode := handBrakeMode response;
                       FFmpegMode := FFmpegMode response;
                       preset := Some EmptyString |}
                  else response)
          end
      end
  end.

End Engine.

End Plugin.

(** ** Notions used to state the properties *)

Module Props.
Import Json Plugin.

(** A disposition mapping of an operation, from its name/boolean pairs *)
Definition flagsObject (flags : list (string * bool)) : value :=
  VObj (map (fun '(name, b) => (name, VBool b)) flags).

(** The flag encoding as the specification words it: the first flag that
    is true is bare, every later true flag has [+], every false flag [-]. *)
Fixpoint firstTrueBare (seenTrue : bool) (flags : list (string * bool)) : list string :=
  match flags with
  | [] => []
  | (name, true) :: rest =>
      (if seenTrue then "+" ++ name else name) :: firstTrueBare true rest
  | (name, false) :: rest => ("-" ++ name) :: firstTrueBare seenTrue rest
  end.

Definition encodeAsSpecified (flags : list (string * bool)) : string :=
  Js.join EmptyString (firstTrueBare false flags).

(** The text of a flag after the first entry *)
Definition signedFlag (flag : string * bool) : string :=
  (if snd flag then "+" else "-") ++ fst flag.

(** Capture-group substitution as the specification words it, last write
    winning: the groups that the last match leaves for each placeholder,
    [later] overriding [earlier] position by position. *)
Fixpoint override (earlier later : list (option string)) : list (option string) :=
  match earlier, later with
  | _, [] => earlier
  | [], _ => later
  | _ :: e, l :: r => l :: override e r
  end.

Definition lastWriteWins (template : string) (matches : list (list (option string)))
  : string :=
  substituteGroups template 0 (fold_left override matches []).

(** The three outcomes of a track *)
Inductive outcome : Type :=
| Dropped
| VerbatimCopy
| Applied (rule : value) (operations : list value).

(** The number of output tracks an outcome stands for *)
Definition outputsOf (oc : outcome) : nat :=
  match oc with
  | Dropped => 0
  | VerbatimCopy => 1
  | Applied _ operations => List.length operations
  end.

(** The output index of an entry that opens an output track (the entries
    carrying [-c:a:<index>]) *)
Definition opensOutput (c : instr) : option nat :=
  match c with
  | MapCopy _ o => Some o
  | Codec o _ => Some o
  | _ => None
  end.

Fixpoint streamOutputs (cs : list instr) : list nat :=
  match cs with
  | [] => []
  | c :: rest =>
      match opensOutput c with
      | Some o => o :: streamOutputs rest
      | None => streamOutputs rest
      end
  end.

(** The input index of every [-map 0:a:<index>] *)
Fixpoint mapInputs (cs : list instr) : list nat :=
  match cs with
  | [] => []
  | MapCopy i _ :: rest => i :: mapInputs rest
  | Map i :: rest => i :: mapInputs rest
  | _ :: rest => mapInputs rest
  end.

(** The input indices of the output tracks of a run whose tracks, from
    input index [k] on, have the given outcomes *)
Fixpoint inputsFrom (k : nat) (outcomes : list outcome) : list nat :=
  match outcomes with
  | [] => []
  | oc :: rest => (repeat k (outputsOf oc) ++ inputsFrom (S k) rest)%list
  end.

Section Outcome.
Variable regexTest : string -> string -> string -> result bool.

(** The first rule, in document order, that the track matches *)
Fixpoint firstMatching (track : Stream) (rules : list value) : result (option value) :=
  match rules with
  | [] => Ok None
  | rule :: rest =>
      matched <- trackMatches regexTest track (prop rule "match") ;;
      if matched then Ok (Some rule) else firstMatching track rest
  end.

Definition outcomeOf (track : Stream) (rules : list value) : result outcome :=
  r <- firstMatching track rules ;;
  Ok (match r with
      | None => VerbatimCopy
      | Some rule =>
          match items (prop rule "operations") with
          | [] => Dropped
          | operations => Applied rule operations
          end
      end).
End Outcome.

(** *** The structure of a rule document

    The structural conditions that the validator tests, stated on the
    document itself.  An operation that has a [copy] property is a copy
    operation whatever else it has; an object the validator inspects by
    [hasOwnProperty] must leave that method [callable]. *)

Definition hasType (ty : string) (v : value) : bool := String.eqb (typeof v) ty.

(** An object on which [hasOwnProperty] can be called *)
Definition callable (v : value) : bool :=
  andb (Validator.isObject v) (negb (shadowed v)).

(** An optional property of type [ty] *)
Definition optionalOf (ty : string) (body : value) (k : string) : bool :=
  implb (hasOwnProperty body k) (hasType ty (prop body k)).

(** An optional selector: a string or an array *)
Definition optionalSelector (body : value) (k : string) : bool :=
  implb (hasOwnProperty body k) (Validator.stringOrArray (prop body k)).

(** Optional disposition overrides: an object of booleans *)
Definition wellFormedFlags (body : value) : bool :=
  implb (hasOwnProperty body "dispositions")
    (andb (Validator.isObject (prop body "dispositions"))
          (forallb (fun e => hasType "boolean" (snd e))
             (entries (prop body "dispositions")))).

Definition wellFormedCopy (copy : value) : bool :=
  andb (callable copy)
    (andb (optionalOf "string" copy "title") (wellFormedFlags copy)).

Definition wellFormedTranscode (transcode : value) : bool :=
  andb (callable transcode)
    (andb (hasOwnProperty transcode "codec")
       (andb (hasType "string" (prop transcode "codec"))
          (andb (optionalOf "number" transcode "channels")
             (andb (optionalOf "number" transcode "bitrate")
                (andb (optionalOf "string" transcode "title")
                   (andb (wellFormedFlags transcode)
                      (optionalOf "string" transcode "filters"))))))).

Definition wellFormedOperation (operation : value) : bool :=
  andb (callable operation)
    (if hasOwnProperty operation "copy"
     then wellFormedCopy (prop operation "copy")
     else andb (hasOwnProperty operation "transcode")
               (wellFormedTranscode (prop operation "transcode"))).

(** The codec selector: a set, the wildcard, or a negated codec *)
Definition wellFormedCodecs (codecs : value) : bool :=
  match codecs with
  | VArr _ => true
  | VStr s => orb (String.eqb s "*") (Js.startsWith s "!")
  | _ => false
  end.

Definition wellFormedTitle (match_ : value) : bool :=
  implb (hasOwnProperty match_ "title")
    (let title := prop match_ "title" in
     andb (callable title)
       (andb (hasOwnProperty title "pattern")
          (andb (hasType "string" (prop title "pattern"))
             (optionalOf "boolean" title "caseSensitive")))).

Definition wellFormedMatch (match_ : value) : bool :=
  andb (callable match_)
    (andb (hasOwnProperty match_ "codecs")
       (andb (wellFormedCodecs (prop match_ "codecs"))
          (andb (optionalSelector match_ "channels")
             (andb (optionalSelector match_ "bitrate")
                (andb (optionalSelector match_ "languages")
                   (andb (implb (hasOwnProperty match_ "dispositions")
                            (Validator.isObject (prop match_ "dispositions")))
                         (wellFormedTitle match_))))))).

Definition wellFormedRule (rule : value) : bool :=
  andb (callable rule)
    (andb (hasOwnProperty rule "match")
       (andb (hasOwnProperty rule "operations")
          (andb (wellFormedMatch (prop rule "match"))
             (andb (isArray (prop rule "operations"))
                   (forallb wellFormedOperation (items (prop rule "operations"))))))).

(** A document that fails a test of the validator: one that does not
    parse, whose root is not an array, or that has an ill-formed rule at
    some position *)
Definition violates (doc : Validator.parsed) : Prop :=
  match doc with
  | Validator.ParseError _ => True
  | Validator.Parsed (VArr rules) =>
      exists rule, In rule rules /\ wellFormedRule rule = false
  | Validator.Parsed _ => True
  end.

(** *** The structure of a rule document as the specification words it

    Per rule: a match object and an operations list; the match has a
    codec selector (a set of names, the wildcard, or a negated codec) and
    optional selectors that are a string or a set of strings, an optional
    boolean-valued dispositions mapping and an optional title object.  Per
    operation: exactly one of [copy] and [transcode], with their typed
    optional properties. *)

Definition setOfStrings (v : value) : bool :=
  match v with
  | VArr items => forallb (hasType "string") items
  | _ => false
  end.

Definition stringOrSetOfStrings (v : value) : bool :=
  orb (hasType "string" v) (setOfStrings v).

Definition booleanValued (v : value) : bool :=
  andb (Validator.isObject v) (forallb (fun e => hasType "boolean" (snd e)) (entries v)).

(** An optional property that passes [check] when present *)
Definition whenPresent (check : value -> bool) (body : value) (k : string) : bool :=
  implb (hasOwnProperty body k) (check (prop body k)).

Definition specifiedCodecs (codecs : value) : bool :=
  match codecs with
  | VArr _ => setOfStrings codecs
  | VStr s => orb (String.eqb s "*") (Js.startsWith s "!")
  | _ => false
  end.

Definition specifiedTitle (title : value) : bool :=
  andb (Validator.isObject title)
    (andb (hasOwnProperty title "pattern")
       (andb (hasType "string" (prop title "pattern"))
             (whenPresent (hasType "boolean") title "caseSensitive"))).

Definition specifiedMatch (match_ : value) : bool :=
  andb (Validator.isObject match_)
    (andb (hasOwnProperty match_ "codecs")
       (andb (specifiedCodecs (prop match_ "codecs"))
          (andb (whenPresent stringOrSetOfStrings match_ "channels")
             (andb (whenPresent stringOrSetOfStrings match_ "bitrate")
                (andb (whenPresent stringOrSetOfStrings match_ "languages")
                   (andb (whenPresent booleanValued match_ "dispositions")
                         (whenPresent specifiedTitle match_ "title"))))))).

Definition specifiedCopy (copy : value) : bool :=
  andb (Validator.isObject copy)
    (andb (whenPresent (hasType "string") copy "title")
          (whenPresent booleanValued copy "dispositions")).

Definition specifiedTranscode (transcode : value) : bool :=
  andb (Validator.isObject transcode)
    (andb (hasOwnProperty transcode "codec")
       (andb (hasType "string" (prop transcode "codec"))
          (andb (whenPresent (hasType "number") transcode "channels")
             (andb (whenPresent (hasType "number") transcode "bitrate")
                (andb (whenPresent (hasType "string") transcode "title")
                   (andb (whenPresent booleanValued transcode "dispositions")
                         (whenPresent (hasType "string") transcode "filters"))))))).

(** Exactly one of [copy] and [transcode] *)
Definition specifiedOperation (operation : value) : bool :=
  andb (Validator.isObject operation)
    (andb (xorb (hasOwnProperty operation "copy") (hasOwnProperty operation "transcode"))
       (if hasOwnProperty operation "copy"
        then specifiedCopy (prop operation "copy")
        else specifiedTranscode (prop operation "transcode"))).

Definition specifiedRule (rule : value) : bool :=
  andb (Validator.isObject rule)
    (andb (hasOwnProperty rule "match")
       (andb (hasOwnProperty rule "operations")
          (andb (specifiedMatch (prop rule "match"))
             (andb (isArray (prop rule "operations"))
                   (forallb specifiedOperation (items (prop rule "operations"))))))).

(** A structural violation in the specification's sense *)
Definition structuralViolation (doc : Validator.parsed) : Prop :=
  match doc with
  | Validator.ParseError _ => True
  | Validator.Parsed (VArr rules) =>
      exists rule, In rule rules /\ specifiedRule rule = false
  | Validator.Parsed _ => True
  end.

(** *** Rules on which nothing raises

    The validator leaves three things unchecked that can make the pass
    raise: a selector array with an element that is not a string, a
    [codec] that is not a string in a copy body, and a pattern the host
    cannot compile. *)

Definition allStrings (selector : value) : bool :=
  implb (truthy selector) (forallb (hasType "string") (asArray selector)).

Definition quietCodec (body : value) : bool :=
  orb (negb (truthy (prop body "codec"))) (hasType "string" (prop body "codec")).

Definition quietOperation (operation : value) : bool :=
  implb (truthy (prop operation "copy")) (quietCodec (prop operation "copy")).

Definition raiseFree (rule : value) : bool :=
  andb (allStrings (prop (prop rule "match") "channels"))
    (andb (allStrings (prop (prop rule "match") "bitrate"))
          (forallb quietOperation (items (prop rule "operations")))).

(** What the pass needs of a rule to return *)
Definition passable (rule : value) : Prop :=
  wellFormedCodecs (prop (prop rule "match") "codecs") = true
  /\ forallb wellFormedOperation (items (prop rule "operations")) = true
  /\ raiseFree rule = true.

(** An engine that answers on every input *)
Definition answers {A : Type} (engine : string -> string -> string -> result A) : Prop :=
  forall pattern flags subject, exists a, engine pattern flags subject = Ok a.

(** *** Notions for the further properties *)

(** The two replacements that end [getNewTrackTitle] *)
Definition sanitize (title : string) : string :=
  Js.replaceAll (Js.replaceAll title "," "‚") dquote "″".

(** Whether a character occurs in a text *)
Fixpoint hasChar (c : ascii) (s : string) : bool :=
  match s with
  | EmptyString => false
  | String d rest => orb (Ascii.eqb c d) (hasChar c rest)
  end.

(** A text with every [c] replaced by [repl] *)
Fixpoint substChar (c : ascii) (repl s : string) : string :=
  match s with
  | EmptyString => EmptyString
  | String d rest =>
      (if Ascii.eqb c d then repl else String d EmptyString) ++ substChar c repl rest
  end.

(** Whether an outcome applies operations *)
Definition isApplied (oc : outcome) : bool :=
  match oc with Applied _ _ => true | _ => false end.

(** The codec a transcode body resolves to: its [codec], or the track's
    when it is [copy] *)
Definition targetCodecOf (track : Stream) (codec : string) : string :=
  if String.eqb codec "copy" then codec_name track else codec.

(** The audio tracks the plugin extracts from a file; none when the probe
    data or its streams are missing *)
Definition audioTracksOf (file : File) : list Stream :=
  match ffProbeData file with
  | Some probe =>
      match streams probe with
      | Some allStreams =>
          filter (fun s => String.eqb (codec_type s) "audio") allStreams
      | None => []
      end
  | None => []
  end.

(** Whether the marker text of a file carries the token of the rules *)
Definition alreadyProcessed (file : File) (rules : list value) : bool :=
  match ffProbeData file, pluginWatermark rules with
  | Some probe, Ok watermark =>
      Js.includes (orDefault (COPYRIGHT probe) EmptyString) watermark
  | _, _ => false
  end.

(** The plan of a run in which every track is copied verbatim *)
Definition verbatimPlan (n : nat) : list instr := map (fun k => MapCopy k k) (seq 0 n).

(** A regular-expression engine that only answers for [flags] *)
Definition onlyFlags {A : Type} (flags : string)
    (engine : string -> string -> string -> result A)
    (pattern flags' subject : string) : result A :=
  if String.eqb flags' flags then engine pattern flags' subject
  else Throws "unexpected flags".

End Props.

(** ** Concrete inputs *)

Module Examples.
Import Json Plugin.

Definition audio (codec : string) (count : Z) (bps : option Z)
    (title : option string) : Stream :=
  {| index := 1; codec_type := "audio"; codec_name := codec; channels := count;
     channel_layout := None; bit_rate := option_map VNum bps; tag_title := title;
     tag_language := None; disposition := [] |}.

Definition fileOf (tracks : list Stream) (marker : option string) : File :=
  {| container := "mkv";
     ffProbeData := Some {| streams := Some tracks; COPYRIGHT := marker |} |}.

Definition rule (match_ : list (string * value)) (operations : list value) : value :=
  VObj [("match", VObj match_); ("operations", VArr operations)].

Definition inputsOf (rules : list value) : Inputs :=
  {| transcodeRules := Validator.Parsed (VArr rules); dryRun := "false" |}.

(** [[{"match":{"codecs":"*"},"operations":[]}]] *)
Definition dropAll : list value := [rule [("codecs", VStr "*")] []].

Definition stereoAac : Stream := audio "aac" 2 (Some 128000) None.

(** [[{"match":{"codecs":["eac3"],"channels":"<=6"},
      "operations":[{"transcode":{"codec":"ac3"}}]}]] *)
Definition eac3ToAc3 : list value :=
  [rule [("codecs", VArr [VStr "eac3"]); ("channels", VStr "<=6")]
        [VObj [("transcode", VObj [("codec", VStr "ac3")])]]].

Definition eac3Track : Stream := audio "eac3" 6 (Some 768000) None.

(** The base64 text of that rule set, which its watermark carries *)
Definition eac3ToAc3Encoded : string :=
  Eval vm_compute in
    match btoa (stringify (VArr eac3ToAc3)) with
    | Ok encoded => encoded
    | Throws _ => EmptyString
    end.

(** [[{"match":{"codecs":["truehd"]},
      "operations":[{"transcode":{"codec":"ac3","title":"{o_channels}ch {o_channels_fancy}"}}]}]] *)
Definition truehdToAc3 : list value :=
  [rule [("codecs", VArr [VStr "truehd"])]
        [VObj [("transcode",
                VObj [("codec", VStr "ac3");
                      ("title", VStr "{o_channels}ch {o_channels_fancy}")])]]].

Definition truehdTrack : Stream := audio "truehd" 8 None None.

(** [[{"match":{"codecs":["AC3"]},"operations":[]}]] *)
Definition upperCaseCodec : value := VObj [("codecs", VArr [VStr "AC3"])].
Definition negatedUpperCaseCodec : value := VObj [("codecs", VStr "!AC3")].
Definition ac3Track : Stream := audio "ac3" 6 (Some 448000) None.

(** [[{"match":{"codecs":["truehd"]},
      "operations":[{"transcode":{"codec":"aac"}},{"copy":{}}]},
     {"match":{"codecs":"!eac3"},"operations":[]}]] *)
Definition mixedRules : list value :=
  [rule [("codecs", VArr [VStr "truehd"])]
        [VObj [("transcode", VObj [("codec", VStr "aac")])];
         VObj [("copy", VObj [])]];
   rule [("codecs", VStr "!eac3")] []].

Definition threeTracks : list Stream := [truehdTrack; stereoAac; eac3Track].

(** [[{"match":{"codecs":"*"},"operations":[{"copy":{"title":"7″"}}]}]]:
    the title holds U+2033, a character above U+00FF. *)
Definition doublePrimeTitle : list value :=
  [rule [("codecs", VStr "*")] [VObj [("copy", VObj [("title", VStr "7″")])]]].

(** [[{"match":{"codecs":"*"},
      "operations":[{"copy":{},"transcode":{"codec":"ac3"}}]}]] *)
Definition copyBesideTranscode : list value :=
  [rule [("codecs", VStr "*")]
        [VObj [("copy", VObj []); ("transcode", VObj [("codec", VStr "ac3")])]]].

(** The base64 text of that rule set *)
Definition copyBesideTranscodeEncoded : string :=
  Eval vm_compute in
    match btoa (stringify (VArr copyBesideTranscode)) with
    | Ok encoded => encoded
    | Throws _ => EmptyString
    end.

(** [[{"match":{"codecs":"*","channels":[6]},"operations":[]}]] *)
Definition numericCondition : list value :=
  [rule [("codecs", VStr "*"); ("channels", VArr [VNum 6])] []].

(** [[{"match":{"codecs":"*","dispositions":{"default":1}},"operations":[]}]] *)
Definition numericDisposition : list value :=
  [rule [("codecs", VStr "*"); ("dispositions", VObj [("default", VNum 1)])] []].

(** The title match [{"pattern":"(\\w)"}] and a track titled [a b]: the
    pattern matches twice, with groups [a] and then [b]. *)
Definition wordPattern : value := VObj [("pattern", VStr "(\w)")].
Definition titledTrack : Stream := audio "aac" 2 None (Some "a b").
Definition twoMatches : list (list (option string)) := [[Some "a"]; [Some "b"]].

(** The host's [matchAll] at that pattern and title *)
Definition wordMatchAll (pattern flags subject : string)
  : result (list (list (option string))) :=
  if andb (String.eqb pattern "(\w)")
          (andb (String.eqb flags "gi") (String.eqb subject "a b"))
  then Ok twoMatches
  else Throws "not tabulated".

Definition wordTest (pattern flags subject : string) : result bool :=
  if andb (String.eqb pattern "(\w)")
          (andb (String.eqb flags "i") (String.eqb subject "a b"))
  then Ok true
  else Throws "not tabulated".

End Examples.

(** * Properties *)

Import Json Plugin Props.

(** ** Disposition flags (C2) *)

Lemma dispositionFlags_rest (flags : list (string * bool)) :
  dispositionFlags false (entries (flagsObject flags)) = map signedFlag flags.
Proof.
  unfold flagsObject; simpl.
  induction flags as [|[name b] rest IH]; simpl; [reflexivity|].
  rewrite IH. destruct b; reflexivity.
Qed.

(** C2, as the code has it: the entry that comes first in the mapping is
    emitted bare when it is true and with [-] when it is false; every later
    entry is emitted with [+] when true and [-] when false, whatever came
    before it. *)
Theorem C2_first_entry_bare (flags : list (string * bool)) :
  getDispositionFlags (flagsObject flags) =
  match flags with
  | [] => EmptyString
  | (name, b) :: rest =>
      Js.join EmptyString ((if b then name else "-" ++ name) :: map signedFlag rest)
  end.
Proof.
  destruct flags as [|[name b] rest]; [reflexivity|].
  unfold getDispositionFlags.
  change (entries (flagsObject ((name, b) :: rest)))
    with ((name, VBool b) :: entries (flagsObject rest)).
  cbn [dispositionFlags]. rewrite dispositionFlags_rest.
  destruct b; reflexivity.
Qed.

(** C2, counterexample: for [{comment: false, default: true}] the code
    emits [-comment+default], where the wording of the claim asks for a
    bare [default]. *)
Lemma C2_first_true_not_bare :
  getDispositionFlags (flagsObject [("comment", false); ("default", true)])
    = "-comment+default"
  /\ encodeAsSpecified [("comment", false); ("default", true)] = "-commentdefault"
  /\ getDispositionFlags (flagsObject [("comment", false); ("default", true)])
       <> encodeAsSpecified [("comment", false); ("default", true)].
Proof.
  repeat split; try reflexivity.
  vm_compute. discriminate.
Qed.

(** ** Runs of the engine at concrete inputs (C1, C3, C4, C6) *)

Section Runs.
Import Examples.
Variable regexTest : string -> string -> string -> result bool.
Variable regexMatchAll :
  string -> string -> string -> result (list (list (option string))).

(** C1, at the failing input: one stereo AAC track and the rule set
    [[{"match":{"codecs":"*"},"operations":[]}]].  The document is valid,
    the track matches the rule and is dropped (no command, output index
    still 0), but [requireTranscode] stays false and the response is the
    unchanged one: [processFile] false and no preset. *)
Theorem C1_drop_only_run_is_unchanged :
  Validator.validateTranscodeRules (Validator.Parsed (VArr dropAll)) = inr dropAll
  /\ outcomeOf regexTest stereoAac dropAll = Ok Dropped
  /\ processTracks regexTest regexMatchAll dropAll [stereoAac]
     = Ok {| audioTracksCommands := []; inputTrackIndex := 1;
             outputTrackIndex := 0; requireTranscode := false |}
  /\ plugin regexTest regexMatchAll (fileOf [stereoAac] None) (inputsOf dropAll)
     = Ok {| processFile := false; responseContainer := ".mkv";
             handBrakeMode := false; FFmpegMode := true; preset := None |}.
Proof. repeat split; vm_compute; reflexivity. Qed.

(** C3, at the failing input: the E-AC3 5.1 track at 768000 bps, matched
    by [codecs:["eac3"], channels:"<=6"], transcoded to AC3 with no
    explicit bitrate.  The commands are the stream mapping and the codec
    only; no bitrate entry is pushed. *)
Theorem C3_no_bitrate_entry_without_explicit_bitrate :
  Validator.validateTranscodeRules (Validator.Parsed (VArr eac3ToAc3)) = inr eac3ToAc3
  /\ outcomeOf regexTest eac3Track eac3ToAc3
     = Ok (Applied (hd VNull eac3ToAc3) [VObj [("transcode", VObj [("codec", VStr "ac3")])]])
  /\ processTracks regexTest regexMatchAll eac3ToAc3 [eac3Track]
     = Ok {| audioTracksCommands := [Map 0; Codec 0 "ac3"]; inputTrackIndex := 1;
             outputTrackIndex := 1; requireTranscode := true |}
  /\ map render [Map 0; Codec 0 "ac3"] = ["-map 0:a:0"; "-c:a:0 ac3"].
Proof. repeat split; vm_compute; reflexivity. Qed.

(** C4, at the failing input: the TrueHD 7.1 track transcoded to AC3 with
    the title template [{o_channels}ch {o_channels_fancy}].  The channel
    entry carries the clamped count 6, the title is expanded with 8. *)
Theorem C4_title_uses_unclamped_channels :
  Validator.validateTranscodeRules (Validator.Parsed (VArr truehdToAc3)) = inr truehdToAc3
  /\ processTracks regexTest regexMatchAll truehdToAc3 [truehdTrack]
     = Ok {| audioTracksCommands :=
               [Map 0; Codec 0 "ac3"; Channels 0 6; Title 0 "8ch 7.1"];
             inputTrackIndex := 1; outputTrackIndex := 1;
             requireTranscode := true |}.
Proof. repeat split; vm_compute; reflexivity. Qed.

(** C6, at the failing input: the rule lists [AC3], the track reports
    [ac3].  The set test lower-cases the track's codec only, so the track
    does not match; the negated form [!AC3], which lower-cases both sides,
    does treat the two names as the same codec. *)
Theorem C6_uppercase_codec_in_set_not_matched :
  trackMatches regexTest ac3Track upperCaseCodec = Ok false
  /\ trackMatches regexTest ac3Track negatedUpperCaseCodec = Ok false
  /\ trackMatches regexTest ac3Track (VObj [("codecs", VArr [VStr "ac3"])]) = Ok true.
Proof. repeat split; vm_compute; reflexivity. Qed.

End Runs.

(** ** Capture groups of the title template (C5) *)

Lemma prefix_app_true (a b s : string) :
  String.prefix (a ++ b) s = true -> String.prefix a s = true.
Proof.
  revert s. induction a as [|c a IH]; intros s H; [destruct s; reflexivity|].
  destruct s as [|d s]; simpl in *; [discriminate|].
  destruct (Ascii.ascii_dec c d); [eauto | discriminate].
Qed.

Lemma includes_app_false (s a b : string) :
  Js.includes s a = false -> Js.includes s (a ++ b) = false.
Proof.
  induction s as [|c s IH]; cbn [Js.includes]; intro H.
  - destruct (String.prefix (a ++ b) EmptyString) eqn:E; [|reflexivity].
    apply prefix_app_true in E. rewrite E in H. discriminate.
  - destruct (String.prefix a (String c s)) eqn:Ea; [discriminate|].
    destruct (String.prefix (a ++ b) (String c s)) eqn:E.
    + apply prefix_app_true in E. congruence.
    + auto.
Qed.

Lemma replaceScan_absent (find repl : string) :
  forall s pre, Js.includes s find = false -> Js.replaceScan find repl pre s 0 = s.
Proof.
  induction s as [|c s IH]; intros pre H; cbn [Js.includes] in H.
  - destruct find; [discriminate H | reflexivity].
  - cbn [Js.replaceScan].
    destruct (String.prefix find (String c s)); [discriminate|].
    rewrite IH by assumption. reflexivity.
Qed.

Lemma replaceAll_absent (s find repl : string) :
  Js.includes s find = false -> Js.replaceAll s find repl = s.
Proof. apply replaceScan_absent. Qed.

Lemma substituteGroups_no_brace (groups : list (option string)) :
  forall t k, Js.includes t "{" = false -> substituteGroups t k groups = t.
Proof.
  induction groups as [|g groups IH]; intros t k H; cbn [substituteGroups]; [reflexivity|].
  rewrite replaceAll_absent.
  - apply IH, H.
  - apply (includes_app_false t "{" (Js.natToString (k + 1) ++ "}")), H.
Qed.

Lemma substituteGroups_absent (groups : list (option string)) :
  forall t i,
    (forall k, (k < List.length groups)%nat ->
       Js.includes t ("{" ++ Js.natToString (i + k + 1) ++ "}") = false) ->
    substituteGroups t i groups = t.
Proof.
  induction groups as [|g groups IH]; intros t i H; cbn [substituteGroups]; [reflexivity|].
  rewrite replaceAll_absent.
  - apply IH. intros k Hk.
    replace (S i + k + 1)%nat with (i + S k + 1)%nat by lia.
    apply H. simpl. lia.
  - specialize (H 0%nat). rewrite Nat.add_0_r in H. apply H. simpl. lia.
Qed.

(** C5, as the code has it: the matches are applied one after the other,
    each group replacing every occurrence of its placeholder in the title
    built so far.  Once the title left by the first match holds none of
    the numbered placeholders that the later matches have a group for, the
    later matches change nothing: the first match decides the value of a
    placeholder.  Placeholders of derived tags may still be in the title. *)
Theorem C5_first_match_decides (template : string) (first : list (option string))
    (later : list (list (option string))) :
  (forall groups k,
      In groups later -> (k < List.length groups)%nat ->
      Js.includes (substituteGroups template 0 first)
        ("{" ++ Js.natToString (k + 1) ++ "}") = false) ->
  substituteMatches template (first :: later) = substituteGroups template 0 first.
Proof.
  unfold substituteMatches. cbn [fold_left].
  generalize (substituteGroups template 0 first) as t.
  induction later as [|m later IH]; intros t H; cbn [fold_left]; [reflexivity|].
  rewrite substituteGroups_absent.
  - apply IH. intros groups k Hin. apply H. right. exact Hin.
  - intros k Hk. apply (H m k); [left; reflexivity | exact Hk].
Qed.

Lemma C5_first_match_decides_witness :
  (forall groups k,
      In groups [[Some "b"]] -> (k < List.length groups)%nat ->
      Js.includes (substituteGroups "{1} {i_CODEC} - {1}" 0 [Some "a"])
        ("{" ++ Js.natToString (k + 1) ++ "}") = false)
  /\ substituteMatches "{1} {i_CODEC} - {1}" [[Some "a"]; [Some "b"]]
     = "a {i_CODEC} - a".
Proof.
  assert (H : forall groups k,
             In groups [[Some "b"]] -> (k < List.length groups)%nat ->
             Js.includes (substituteGroups "{1} {i_CODEC} - {1}" 0 [Some "a"])
               ("{" ++ Js.natToString (k + 1) ++ "}") = false).
  { intros groups k [<-|[]] Hk.
    destruct k as [|k]; [reflexivity | simpl in Hk; lia]. }
  split; [exact H|].
  exact (C5_first_match_decides "{1} {i_CODEC} - {1}" [Some "a"] [[Some "b"]] H).
Defined.

(** C5, counterexample: the pattern [(\w)] matches the title [a b] twice,
    with groups [a] and [b]; the template [{1}] expands to [a], the group
    of the first match, where last-write-wins gives [b]. *)
Lemma C5_later_match_does_not_win :
  getNewTrackTitle Examples.wordMatchAll Examples.titledTrack Examples.wordPattern
    (VObj [("title", VStr "{1}")]) None = Ok "a"
  /\ substituteMatches "{1}" Examples.twoMatches = "a"
  /\ lastWriteWins "{1}" Examples.twoMatches = "b"
  /\ substituteMatches "{1}" Examples.twoMatches <> lastWriteWins "{1}" Examples.twoMatches.
Proof.
  repeat split; try (vm_compute; reflexivity).
  vm_compute. discriminate.
Qed.

(** ** The default of [caseSensitive] (C10) *)

Lemma lookup_setField (k k' : string) (x : value) (fields : list (string * value)) :
  lookup k' (setField k x fields)
  = if String.eqb k' k then Some x else lookup k' fields.
Proof.
  induction fields as [|[k0 v0] fields IH]; simpl.
  - destruct (String.eqb k' k); reflexivity.
  - destruct (String.eqb_spec k k0) as [->|Hk]; simpl.
    + destruct (String.eqb k' k0); reflexivity.
    + rewrite IH. destruct (String.eqb_spec k' k0) as [->|Hk'].
      * destruct (String.eqb_spec k0 k); [congruence | reflexivity].
      * reflexivity.
Qed.

Lemma prop_setField (k k' : string) (x : value) (fields : list (string * value)) :
  prop (VObj (setField k x fields)) k'
  = if String.eqb k' k then x else prop (VObj fields) k'.
Proof.
  unfold prop. rewrite lookup_setField. destruct (String.eqb k' k); reflexivity.
Qed.

(** C10: for a title match that omits [caseSensitive], the selector test
    is the test of the other selectors followed by the engine's test of
    the pattern on the track title with the flag [i], and the title
    expander is the engine's search of all matches with the flags [gi],
    followed by the expansion of the template that their groups leave.
    The title match then behaves as one that gives [caseSensitive] as
    [false], and no other flags are put to the engine. *)
Theorem C10_omitted_caseSensitive_is_false
    (regexTest : string -> string -> string -> result bool)
    (regexMatchAll : string -> string -> string -> result (list (list (option string))))
    (track : Stream) (fields titleFields opFields : list (string * value))
    (operation : value) (bitrate : option value) :
  lookup "title" fields = Some (VObj titleFields) ->
  lookup "caseSensitive" titleFields = None ->
  let pattern := toString (prop (VObj titleFields) "pattern") in
  let trackTitle := orDefault (tag_title track) EmptyString in
  let template := toString (prop (VObj opFields) "title") in
  let explicitTitle := VObj (setField "caseSensitive" (VBool false) titleFields) in
  let explicit := VObj (setField "title" explicitTitle fields) in
  let untitled := VObj (setField "title" VUndefined fields) in
  trackMatches regexTest track (VObj fields)
  = (others <- trackMatches regexTest track untitled ;;
     if others then regexTest pattern "i" trackTitle else Ok false)
  /\ getNewTrackTitle regexMatchAll track (VObj titleFields) (VObj opFields) bitrate
     = (matches <- regexMatchAll pattern "gi" trackTitle ;;
        getNewTrackTitle regexMatchAll track VUndefined
          (VObj (setField "title" (VStr (substituteMatches template matches)) opFields))
          bitrate)
  /\ trackMatches regexTest track (VObj fields) = trackMatches regexTest track explicit
  /\ trackMatches regexTest track (VObj fields)
     = trackMatches (onlyFlags "i" regexTest) track (VObj fields)
  /\ getNewTrackTitle regexMatchAll track (VObj titleFields) operation bitrate
     = getNewTrackTitle regexMatchAll track explicitTitle operation bitrate
  /\ getNewTrackTitle regexMatchAll track (VObj titleFields) operation bitrate
     = getNewTrackTitle (onlyFlags "gi" regexMatchAll) track (VObj titleFields)
         operation bitrate.
Proof.
  intros Htitle Hcase pattern trackTitle template explicitTitle explicit untitled.
  assert (Hother : forall k, String.eqb k "title" = false ->
                     prop explicit k = prop (VObj fields) k).
  { intros k Hk. unfold explicit. rewrite prop_setField, Hk. reflexivity. }
  assert (Hother' : forall k, String.eqb k "title" = false ->
                      prop untitled k = prop (VObj fields) k).
  { intros k Hk. unfold untitled. rewrite prop_setField, Hk. reflexivity. }
  assert (Ht : prop (VObj fields) "title" = VObj titleFields).
  { unfold prop. rewrite Htitle. reflexivity. }
  assert (Ht' : prop explicit "title" = explicitTitle).
  { unfold explicit. rewrite prop_setField. reflexivity. }
  assert (Ht'' : prop untitled "title" = VUndefined).
  { unfold untitled. rewrite prop_setField. reflexivity. }
  assert (Hc : prop (VObj titleFields) "caseSensitive" = VUndefined).
  { unfold prop. rewrite Hcase. reflexivity. }
  assert (Hc' : prop explicitTitle "caseSensitive" = VBool false).
  { unfold explicitTitle. rewrite prop_setField. reflexivity. }
  assert (Hp : prop explicitTitle "pattern" = prop (VObj titleFields) "pattern").
  { unfold explicitTitle. rewrite prop_setField. reflexivity. }
  split; [|split; [|repeat split]].
  - unfold trackMatches.
    rewrite !Hother' by reflexivity. rewrite Ht, Ht'', Hc.
    cbn [truthy]. fold pattern. fold trackTitle.
    destruct (match prop (VObj fields) "codecs" with
              | VArr codecs => _ | VStr codecs => _
              | VUndefined | VNull => _ | _ => _ end) as [[|]|e];
      cbn [bind]; try reflexivity.
    destruct (if truthy (prop (VObj fields) "channels") then _ else _) as [[|]|e];
      cbn [bind negb]; try reflexivity.
    destruct (if truthy (prop (VObj fields) "bitrate") then _ else _) as [[|]|e];
      cbn [bind negb]; try reflexivity.
    destruct (andb (truthy (prop (VObj fields) "languages")) _);
      cbn [bind]; try reflexivity.
    destruct (andb (truthy (prop (VObj fields) "dispositions")) _);
      cbn [bind]; try reflexivity.
    destruct (regexTest pattern "i" trackTitle) as [found|e]; reflexivity.
  - unfold getNewTrackTitle at 1. rewrite Hc.
    cbn [truthy]. fold pattern. fold trackTitle. fold template.
    destruct (regexMatchAll pattern "gi" trackTitle) as [matches|e];
      cbn [bind]; [|reflexivity].
    unfold getNewTrackTitle. cbn [truthy bind].
    rewrite !prop_setField. cbn [String.eqb Ascii.eqb Bool.eqb toString].
    reflexivity.
  - unfold trackMatches.
    rewrite !Hother by reflexivity. rewrite Ht, Ht', Hc, Hc', Hp. reflexivity.
  - unfold trackMatches. rewrite Ht, Hc. reflexivity.
  - unfold getNewTrackTitle. rewrite Hc, Hc', Hp. reflexivity.
  - unfold getNewTrackTitle. rewrite Hc. reflexivity.
Qed.

Lemma C10_omitted_caseSensitive_is_false_witness :
  trackMatches Examples.wordTest Examples.titledTrack
    (VObj [("codecs", VStr "*"); ("title", Examples.wordPattern)])
  = Examples.wordTest "(\w)" "i" "a b"
  /\ getNewTrackTitle Examples.wordMatchAll Examples.titledTrack Examples.wordPattern
       (VObj [("title", VStr "{1} {i_CODEC}")]) None
     = (matches <- Examples.wordMatchAll "(\w)" "gi" "a b" ;;
        getNewTrackTitle Examples.wordMatchAll Examples.titledTrack VUndefined
          (VObj [("title", VStr (substituteMatches "{1} {i_CODEC}" matches))]) None).
Proof.
  pose proof (C10_omitted_caseSensitive_is_false
                Examples.wordTest Examples.wordMatchAll Examples.titledTrack
                [("codecs", VStr "*"); ("title", Examples.wordPattern)]
                [("pattern", VStr "(\w)")]
                [("title", VStr "{1} {i_CODEC}")]
                VNull None eq_refl eq_refl) as [Htest [Hexpand _]].
  split; [exact Htest | exact Hexpand].
Defined.

(** ** The watermark (C8) *)

Lemma prefix_app_self (w b : string) : String.prefix w (w ++ b) = true.
Proof.
  induction w as [|c w IH]; simpl; [destruct b; reflexivity|].
  destruct (Ascii.ascii_dec c c); [exact IH | congruence].
Qed.

Lemma includes_app (a w b : string) : Js.includes (a ++ w ++ b) w = true.
Proof.
  induction a as [|c a IH].
  - change (EmptyString ++ w ++ b) with (w ++ b).
    destruct (w ++ b) eqn:E; cbn [Js.includes];
      rewrite <- E, prefix_app_self; reflexivity.
  - change (String c a ++ w ++ b) with (String c (a ++ w ++ b)).
    cbn [Js.includes]. rewrite IH.
    destruct (String.prefix w (String c (a ++ w ++ b))); reflexivity.
Qed.

Lemma includes_marker_token (marker token : string) :
  Js.includes (marker ++ token) token = true.
Proof.
  replace token with (token ++ EmptyString) at 1.
  - apply includes_app.
  - induction token as [|c t IH]; simpl; [reflexivity | now rewrite IH].
Qed.

Lemma orDefault_marker_token (marker : string) (c : ascii) (token : string) :
  orDefault (Some (marker ++ String c token)) EmptyString = marker ++ String c token.
Proof.
  unfold orDefault.
  destruct (String.eqb_spec (marker ++ String c token) EmptyString) as [E|]; [|reflexivity].
  destruct marker; discriminate E.
Qed.

(** C8: the token is the fixed bracket around the base64 text of the
    validated rules alone; when that text cannot be computed (a character
    above U+00FF in the rules) the run raises before it looks at the file.
    Otherwise a file whose marker text contains the token gets the
    unchanged response without a pass over the tracks; a changed run ends
    its preset with the [copyright] metadata made of the marker followed by
    the token, and a run with the same inputs on a file carrying that text
    as its marker is unchanged. *)
Theorem C8_watermark_idempotence
    (regexTest : string -> string -> string -> result bool)
    (regexMatchAll : string -> string -> string -> result (list (list (option string))))
    (file : File) (inputs : Inputs) (rules : list value)
    (probe : ProbeData) (allStreams : list Stream) :
  Validator.validateTranscodeRules (transcodeRules inputs) = inr rules ->
  ffProbeData file = Some probe ->
  streams probe = Some allStreams ->
  let marker := orDefault (COPYRIGHT probe) EmptyString in
  match btoa (stringify (VArr rules)) with
  | Throws msg => plugin regexTest regexMatchAll file inputs = Throws msg
  | Ok encoded =>
      let token := "[Tdarr:advanced_audio_transcode_rename_remove:" ++ encoded ++ "]" in
      (Js.includes marker token = true ->
       plugin regexTest regexMatchAll file inputs = Ok (initialResponse file))
      /\ (forall response,
            plugin regexTest regexMatchAll file inputs = Ok response ->
            processFile response = true ->
            (exists commands,
                preset response
                = Some ("," ++ "-map 0:v -c:v copy "
                          ++ Js.join " " (map render commands) ++ " "
                          ++ subtitleCommands allStreams
                          ++ "-metadata " ++ dquote ++ "copyright="
                          ++ marker ++ token ++ dquote))
            /\ forall file' probe' streams',
                 ffProbeData file' = Some probe' ->
                 streams probe' = Some streams' ->
                 COPYRIGHT probe' = Some (marker ++ token) ->
                 plugin regexTest regexMatchAll file' inputs
                 = Ok (initialResponse file'))
  end.
Proof.
  intros Hv Hp Hs marker.
  destruct (btoa (stringify (VArr rules))) as [encoded|msg] eqn:Hb.
  - intro token. split.
    + intro Hin. unfold plugin, pluginWatermark. rewrite Hv, Hb, Hp, Hs.
      cbn [bind]. fold marker. fold token. rewrite Hin. reflexivity.
    + intros response Hrun Hchanged. split.
      * unfold plugin, pluginWatermark in Hrun. rewrite Hv, Hb, Hp, Hs in Hrun.
        cbn [bind] in Hrun. fold marker in Hrun. fold token in Hrun.
        destruct (Js.includes marker token);
          [injection Hrun as <-; discriminate Hchanged|].
        destruct (Nat.eqb _ 0); [injection Hrun as <-; discriminate Hchanged|].
        destruct (processTracks _ _ _ _) as [st|e]; [|discriminate Hrun].
        cbn [bind] in Hrun.
        destruct (String.eqb (dryRun inputs) "true");
          [injection Hrun as <-; discriminate Hchanged|].
        destruct (requireTranscode st);
          [|injection Hrun as <-; discriminate Hchanged].
        injection Hrun as <-. exists (audioTracksCommands st). reflexivity.
      * intros file' probe' streams' Hp' Hs' Hc'.
        unfold plugin, pluginWatermark. rewrite Hv, Hb, Hp', Hs', Hc'.
        cbn [bind]. fold token. unfold token at 1.
        change ("[Tdarr:advanced_audio_transcode_rename_remove:" ++ encoded ++ "]")
          with (String "[" ("Tdarr:advanced_audio_transcode_rename_remove:"
                              ++ encoded ++ "]")).
        rewrite orDefault_marker_token.
        change (String "[" ("Tdarr:advanced_audio_transcode_rename_remove:"
                              ++ encoded ++ "]")) with token.
        rewrite includes_marker_token. reflexivity.
  - unfold plugin, pluginWatermark. rewrite Hv, Hb. reflexivity.
Qed.

Lemma C8_watermark_idempotence_witness :
  let token :=
    "[Tdarr:advanced_audio_transcode_rename_remove:" ++ Examples.eac3ToAc3Encoded ++ "]" in
  let first := Examples.fileOf [Examples.eac3Track] (Some "encoded by x") in
  let second := Examples.fileOf [Examples.eac3Track] (Some ("encoded by x" ++ token)) in
  let inputs := Examples.inputsOf Examples.eac3ToAc3 in
  (exists response,
      plugin Examples.wordTest Examples.wordMatchAll first inputs = Ok response
      /\ processFile response = true
      /\ preset response
         = Some (",-map 0:v -c:v copy -map 0:a:0 -c:a:0 ac3 -sn -metadata "
                   ++ dquote ++ "copyright=encoded by x" ++ token ++ dquote))
  /\ plugin Examples.wordTest Examples.wordMatchAll second inputs
     = Ok (initialResponse second).
Proof.
  intros token first second inputs.
  pose proof (C8_watermark_idempotence Examples.wordTest Examples.wordMatchAll
                first inputs Examples.eac3ToAc3
                {| streams := Some [Examples.eac3Track];
                   COPYRIGHT := Some "encoded by x" |}
                [Examples.eac3Track] eq_refl eq_refl eq_refl) as H.
  assert (E : btoa (stringify (VArr Examples.eac3ToAc3)) = Ok Examples.eac3ToAc3Encoded)
    by (vm_compute; reflexivity).
  cbv zeta in H. rewrite E in H. destruct H as [_ Hrerun].
  destruct (plugin Examples.wordTest Examples.wordMatchAll first inputs)
    as [response|e] eqn:Hrun; [|vm_compute in Hrun; discriminate Hrun].
  assert (Hchanged : processFile response = true).
  { vm_compute in Hrun. injection Hrun as <-. reflexivity. }
  destruct (Hrerun response eq_refl Hchanged) as [_ Hsecond].
  split.
  - exists response. split; [reflexivity|]. split; [exact Hchanged|].
    vm_compute in Hrun. injection Hrun as <-. vm_compute. reflexivity.
  - exact (Hsecond second
             {| streams := Some [Examples.eac3Track];
                COPYRIGHT := Some ("encoded by x" ++ token) |}
             [Examples.eac3Track] eq_refl eq_refl eq_refl).
Defined.

(** ** The validator (C9) *)

Section ValidatorFacts.
Import Validator.

Lemma validateFlags_None (kind : string) (i j : nat) (flags : list (string * value)) :
  validateFlags kind i j flags = None
  <-> forallb (fun e => hasType "boolean" (snd e)) flags = true.
Proof.
  induction flags as [|[flag v] rest IH]; cbn [validateFlags forallb snd];
    [tauto|].
  unfold hasType at 1.
  destruct (String.eqb (typeof v) "boolean"); cbn [negb andb];
    [exact IH | split; discriminate].
Qed.

Lemma validateOperationDispositions_None (kind : string) (i j : nat) (body : value) :
  validateOperationDispositions kind i j body = None <-> wellFormedFlags body = true.
Proof.
  unfold validateOperationDispositions, wellFormedFlags.
  destruct (hasOwnProperty body "dispositions"); cbn [implb]; [|tauto].
  destruct (isObject (prop body "dispositions")); cbn [negb andb];
    [apply validateFlags_None | split; discriminate].
Qed.

Lemma validateOperation_None (i j : nat) (operation : value) :
  validateOperation i j operation = None <-> wellFormedOperation operation = true.
Proof.
  unfold validateOperation, wellFormedOperation, wellFormedCopy,
    wellFormedTranscode, optionalOf, hasType, callable.
  destruct (isObject operation); cbn [negb andb]; [|split; discriminate].
  destruct (shadowed operation); cbn [negb andb]; [split; discriminate|].
  destruct (hasOwnProperty operation "copy").
  - destruct (isObject (prop operation "copy")); cbn [negb andb];
      [|split; discriminate].
    destruct (shadowed (prop operation "copy")); cbn [negb andb];
      [split; discriminate|].
    destruct (hasOwnProperty (prop operation "copy") "title"); cbn [andb implb].
    + destruct (String.eqb (typeof (prop (prop operation "copy") "title")) "string");
        cbn [negb]; [apply validateOperationDispositions_None | split; discriminate].
    + apply validateOperationDispositions_None.
  - destruct (hasOwnProperty operation "transcode"); cbn [andb];
      [|split; discriminate].
    set (t := prop operation "transcode").
    destruct (isObject t); cbn [negb andb]; [|split; discriminate].
    destruct (shadowed t); cbn [negb andb]; [split; discriminate|].
    destruct (hasOwnProperty t "codec"); cbn [negb andb]; [|split; discriminate].
    destruct (String.eqb (typeof (prop t "codec")) "string"); cbn [negb andb];
      [|split; discriminate].
    destruct (hasOwnProperty t "channels"),
      (String.eqb (typeof (prop t "channels")) "number");
      cbn [negb andb implb]; try (split; discriminate);
    destruct (hasOwnProperty t "bitrate"),
      (String.eqb (typeof (prop t "bitrate")) "number");
      cbn [negb andb implb]; try (split; discriminate);
    destruct (hasOwnProperty t "title"),
      (String.eqb (typeof (prop t "title")) "string");
      cbn [negb andb implb]; try (split; discriminate);
    pose proof (validateOperationDispositions_None "transcode" i j t) as Hd;
    destruct (validateOperationDispositions "transcode" i j t),
      (wellFormedFlags t); cbn [andb];
      try (split; discriminate);
      try (exfalso; destruct Hd as [Hd1 Hd2]; (now discriminate Hd1) || (now discriminate Hd2));
    destruct (hasOwnProperty t "filters"),
      (String.eqb (typeof (prop t "filters")) "string");
      cbn [negb andb implb]; try tauto; split; discriminate.
Qed.

Lemma validateOperations_None (i : nat) (operations : list value) :
  forall j, validateOperations i j operations = None
            <-> forallb wellFormedOperation operations = true.
Proof.
  induction operations as [|op rest IH]; intro j;
    cbn [validateOperations forallb]; [tauto|].
  pose proof (validateOperation_None i j op) as Hop.
  destruct (validateOperation i j op), (wellFormedOperation op); cbn [andb].
  - destruct Hop as [_ Hop]. discriminate (Hop eq_refl).
  - split; discriminate.
  - apply IH.
  - destruct Hop as [Hop _]. discriminate (Hop eq_refl).
Qed.

Lemma validateCodecs_None (i : nat) (codecs : value) :
  validateCodecs i codecs = None <-> wellFormedCodecs codecs = true.
Proof.
  destruct codecs; cbn [validateCodecs wellFormedCodecs];
    try tauto; try (split; discriminate).
  destruct (String.eqb s "*"), (Js.startsWith s "!"); cbn [negb andb orb];
    try tauto; split; discriminate.
Qed.

Lemma validateMatch_None (i : nat) (rule : value) :
  validateMatch i rule = None
  <-> andb (callable rule)
        (andb (hasOwnProperty rule "match")
           (andb (hasOwnProperty rule "operations")
              (let m := prop rule "match" in
               andb (callable m)
                 (andb (hasOwnProperty m "codecs")
                    (andb (wellFormedCodecs (prop m "codecs"))
                       (andb (optionalSelector m "channels")
                          (andb (optionalSelector m "bitrate")
                             (andb (optionalSelector m "languages")
                                (implb (hasOwnProperty m "dispositions")
                                   (isObject (prop m "dispositions"))))))))))) = true.
Proof.
  unfold validateMatch, optionalSelector, callable. cbv zeta.
  set (m := prop rule "match").
  destruct (isObject rule); cbn [negb andb]; [|split; discriminate].
  destruct (shadowed rule); cbn [negb andb]; [split; discriminate|].
  destruct (hasOwnProperty rule "match"); cbn [negb andb orb];
    [|split; discriminate].
  destruct (hasOwnProperty rule "operations"); cbn [negb andb orb];
    [|split; discriminate].
  destruct (isObject m); cbn [negb andb]; [|split; discriminate].
  destruct (shadowed m); cbn [negb andb]; [split; discriminate|].
  destruct (hasOwnProperty m "codecs"); cbn [negb andb]; [|split; discriminate].
  pose proof (validateCodecs_None i (prop m "codecs")) as Hc.
  destruct (validateCodecs i (prop m "codecs")), (wellFormedCodecs (prop m "codecs"));
    cbn [andb]; try (split; discriminate);
    try (exfalso; destruct Hc as [Hc1 Hc2];
         solve [discriminate (Hc1 eq_refl) | discriminate (Hc2 eq_refl)]).
  destruct (hasOwnProperty m "channels"), (stringOrArray (prop m "channels"));
    cbn [negb andb implb]; try (split; discriminate);
  destruct (hasOwnProperty m "bitrate"), (stringOrArray (prop m "bitrate"));
    cbn [negb andb implb]; try (split; discriminate);
  destruct (hasOwnProperty m "languages"), (stringOrArray (prop m "languages"));
    cbn [negb andb implb]; try (split; discriminate);
  destruct (hasOwnProperty m "dispositions"), (isObject (prop m "dispositions"));
    cbn [negb andb implb]; try tauto; split; discriminate.
Qed.

Lemma validateTitle_None (i : nat) (m : value) :
  validateTitle i m = None <-> wellFormedTitle m = true.
Proof.
  unfold validateTitle, wellFormedTitle, optionalOf, hasType, callable. cbv zeta.
  destruct (hasOwnProperty m "title"); cbn [implb]; [|tauto].
  set (t := prop m "title").
  destruct (isObject t); cbn [negb andb]; [|split; discriminate].
  destruct (shadowed t); cbn [negb andb]; [split; discriminate|].
  destruct (hasOwnProperty t "pattern"); cbn [negb andb]; [|split; discriminate].
  destruct (String.eqb (typeof (prop t "pattern")) "string"); cbn [negb andb];
    [|split; discriminate].
  destruct (hasOwnProperty t "caseSensitive"),
    (String.eqb (typeof (prop t "caseSensitive")) "boolean");
    cbn [negb andb implb]; try tauto; split; discriminate.
Qed.

(** One rule: the validator accepts it exactly when it is well formed,
    and then leaves it with its title pattern normalised. *)
Lemma validateRule_spec (i : nat) (rule : value) :
  if wellFormedRule rule
  then validateRule i rule = inr (normalizePattern rule)
  else exists message, validateRule i rule = inl message.
Proof.
  unfold validateRule, wellFormedRule, wellFormedMatch.
  pose proof (validateMatch_None i rule) as Hm. cbv zeta in Hm.
  pose proof (validateTitle_None i (prop rule "match")) as Ht.
  pose proof (validateOperations_None i (items (prop rule "operations")) 0) as Ho.
  set (m := prop rule "match") in *.
  destruct (validateMatch i rule) as [msg|].
  - replace (callable rule && _)%bool with false; [eauto|].
    destruct (callable rule), (hasOwnProperty rule "match"),
      (hasOwnProperty rule "operations"), (callable m), (hasOwnProperty m "codecs"),
      (wellFormedCodecs (prop m "codecs")), (optionalSelector m "channels"),
      (optionalSelector m "bitrate"), (optionalSelector m "languages"),
      (implb (hasOwnProperty m "dispositions") (isObject (prop m "dispositions")));
      cbn [andb] in *; try reflexivity.
    destruct Hm as [_ Hm]. discriminate (Hm eq_refl).
  - destruct Hm as [Hm _]. specialize (Hm eq_refl).
    destruct (callable rule), (hasOwnProperty rule "match"),
      (hasOwnProperty rule "operations"), (callable m), (hasOwnProperty m "codecs"),
      (wellFormedCodecs (prop m "codecs")), (optionalSelector m "channels"),
      (optionalSelector m "bitrate"), (optionalSelector m "languages"),
      (implb (hasOwnProperty m "dispositions") (isObject (prop m "dispositions")));
      cbn [andb] in *; try discriminate Hm.
    destruct (validateTitle i m) as [msg|], (wellFormedTitle m); cbn [andb].
    + destruct Ht as [_ Ht]. discriminate (Ht eq_refl).
    + eauto.
    + destruct (isArray (prop rule "operations")); cbn [negb andb]; [|eauto].
      destruct (validateOperations i 0 (items (prop rule "operations"))) as [msg|],
        (forallb wellFormedOperation (items (prop rule "operations"))).
      * destruct Ho as [_ Ho]. discriminate (Ho eq_refl).
      * eauto.
      * reflexivity.
      * destruct Ho as [Ho _]. discriminate (Ho eq_refl).
    + destruct Ht as [Ht _]. discriminate (Ht eq_refl).
Qed.

Lemma validateRules_spec (rules : list value) :
  forall i,
    if forallb wellFormedRule rules
    then validateRules i rules = inr (map normalizePattern rules)
    else exists message, validateRules i rules = inl message.
Proof.
  induction rules as [|rule rest IH]; intro i; cbn [forallb validateRules map];
    [reflexivity|].
  pose proof (validateRule_spec i rule) as Hr. specialize (IH (S i)).
  destruct (wellFormedRule rule); cbn [andb].
  - rewrite Hr. destruct (forallb wellFormedRule rest).
    + rewrite IH. reflexivity.
    + destruct IH as [message ->]. eauto.
  - destruct Hr as [message ->]. eauto.
Qed.

(** Accepted rules are the document's rules, all well formed, with their
    title patterns normalised. *)
Lemma validateTranscodeRules_inr (doc : parsed) (rules : list value) :
  validateTranscodeRules doc = inr rules ->
  exists original,
    doc = Parsed (VArr original)
    /\ forallb wellFormedRule original = true
    /\ rules = map normalizePattern original.
Proof.
  destruct doc as [message|document]; cbn [validateTranscodeRules]; [discriminate|].
  destruct document as [| | | | |original|]; cbn [isArray negb items];
    try discriminate.
  intro H. pose proof (validateRules_spec original 0) as Hs.
  destruct (forallb wellFormedRule original) eqn:Hw.
  - rewrite Hs in H. injection H as <-. exists original. auto.
  - destruct Hs as [message Hs]. rewrite Hs in H. discriminate.
Qed.

End ValidatorFacts.

Lemma forallb_false_exists {A : Type} (f : A -> bool) (l : list A) :
  forallb f l = false -> exists x, In x l /\ f x = false.
Proof.
  induction l as [|a l IH]; cbn [forallb]; [discriminate|].
  destruct (f a) eqn:E; cbn [andb].
  - intro H. destruct (IH H) as (x & Hin & Hx). exists x. split; [right|]; assumption.
  - intros _. exists a. split; [left; reflexivity | exact E].
Qed.

(** C9, as the code has it: the validator returns a message in place of
    the rules exactly for the documents that fail one of its tests (a
    document that does not parse, a root that is not an array, an
    ill-formed rule at any position), and the plugin then returns the
    response as created on entry ([processFile] false, no preset): no
    track is processed, whatever the other rules are. *)
Theorem C9_validation_all_or_nothing
    (regexTest : string -> string -> string -> result bool)
    (regexMatchAll : string -> string -> string -> result (list (list (option string))))
    (file : File) (inputs : Inputs) :
  (violates (transcodeRules inputs)
   <-> exists message,
         Validator.validateTranscodeRules (transcodeRules inputs) = inl message)
  /\ (violates (transcodeRules inputs) ->
      plugin regexTest regexMatchAll file inputs = Ok (initialResponse file)
      /\ processFile (initialResponse file) = false
      /\ preset (initialResponse file) = None).
Proof.
  assert (Hv : violates (transcodeRules inputs)
               <-> exists message,
                     Validator.validateTranscodeRules (transcodeRules inputs)
                     = inl message).
  { destruct (transcodeRules inputs) as [message|document];
      cbn [Validator.validateTranscodeRules violates] in *; [split; eauto|].
    destruct document as [| | | | |rules|]; cbn [isArray negb items];
      try solve [split; eauto].
    pose proof (validateRules_spec rules 0) as Hs.
    destruct (forallb wellFormedRule rules) eqn:Hall.
    - rewrite Hs. split.
      + intros (rule & Hin & Hrule). rewrite forallb_forall in Hall.
        rewrite (Hall rule Hin) in Hrule. discriminate Hrule.
      + intros [message H]. discriminate H.
    - split; [intros _; exact Hs | intros _; exact (forallb_false_exists _ _ Hall)]. }
  split; [exact Hv|].
  intro Hbad. apply Hv in Hbad as [message Hm]. repeat split.
  unfold plugin. rewrite Hm. reflexivity.
Qed.

Lemma C9_validation_all_or_nothing_witness :
  plugin Examples.wordTest Examples.wordMatchAll
    (Examples.fileOf [Examples.stereoAac] None)
    (Examples.inputsOf
       (Examples.dropAll ++ [Examples.rule [("codecs", VStr "aac")] []])%list)
  = Ok (initialResponse (Examples.fileOf [Examples.stereoAac] None)).
Proof.
  refine (proj1 (proj2
            (C9_validation_all_or_nothing Examples.wordTest Examples.wordMatchAll
               (Examples.fileOf [Examples.stereoAac] None)
               (Examples.inputsOf
                  (Examples.dropAll ++ [Examples.rule [("codecs", VStr "aac")] []])%list))
            _)).
  exists (Examples.rule [("codecs", VStr "aac")] []).
  split; [right; left; reflexivity | reflexivity].
Defined.

(** C9, counterexample: three documents with a structural violation that
    the validator returns as rule sets.  An operation that carries both
    [copy] and [transcode] is accepted and applied as a copy, so that the
    file is processed; a channels selector with a number for element is
    accepted and the pass raises on it; a match dispositions mapping with a
    number for value is accepted. *)
Lemma C9_untested_violation_is_accepted :
  (structuralViolation (Validator.Parsed (VArr Examples.copyBesideTranscode))
   /\ Validator.validateTranscodeRules (Validator.Parsed (VArr Examples.copyBesideTranscode))
      = inr Examples.copyBesideTranscode
   /\ plugin Examples.wordTest Examples.wordMatchAll
        (Examples.fileOf [Examples.stereoAac] None)
        (Examples.inputsOf Examples.copyBesideTranscode)
      = Ok {| processFile := true; responseContainer := ".mkv";
              handBrakeMode := false; FFmpegMode := true;
              preset :=
                Some (",-map 0:v -c:v copy -map 0:a:0 -c:a:0 copy -sn -metadata "
                        ++ dquote ++ "copyright="
                        ++ "[Tdarr:advanced_audio_transcode_rename_remove:"
                        ++ Examples.copyBesideTranscodeEncoded ++ "]" ++ dquote) |})
  /\ (structuralViolation (Validator.Parsed (VArr Examples.numericCondition))
      /\ Validator.validateTranscodeRules (Validator.Parsed (VArr Examples.numericCondition))
         = inr Examples.numericCondition
      /\ plugin Examples.wordTest Examples.wordMatchAll
           (Examples.fileOf [Examples.stereoAac] None)
           (Examples.inputsOf Examples.numericCondition)
         = Throws "condition.startsWith is not a function")
  /\ (structuralViolation (Validator.Parsed (VArr Examples.numericDisposition))
      /\ Validator.validateTranscodeRules
           (Validator.Parsed (VArr Examples.numericDisposition))
         = inr Examples.numericDisposition).
Proof.
  repeat split;
    try (vm_compute; reflexivity);
    (eexists; split; [left; reflexivity | reflexivity]).
Qed.

(** ** Index bookkeeping of the pass over the tracks (C7) *)

Lemma streamOutputs_app (a b : list instr) :
  streamOutputs (a ++ b) = (streamOutputs a ++ streamOutputs b)%list.
Proof.
  induction a as [|c a IH]; [reflexivity|]. cbn [app streamOutputs].
  destruct (opensOutput c); cbn [app]; now rewrite IH.
Qed.

Lemma mapInputs_app (a b : list instr) :
  mapInputs (a ++ b) = (mapInputs a ++ mapInputs b)%list.
Proof.
  induction a as [|c a IH]; [reflexivity|].
  destruct c; cbn [app mapInputs]; now rewrite IH.
Qed.

Lemma isObject_truthy (v : value) : Validator.isObject v = true -> truthy v = true.
Proof. destruct v; try reflexivity; discriminate. Qed.

Lemma callable_truthy (v : value) : callable v = true -> truthy v = true.
Proof.
  unfold callable. intro H. apply andb_prop in H as [H _].
  apply isObject_truthy, H.
Qed.

Lemma prop_absent (v : value) (k : string) :
  hasOwnProperty v k = false -> prop v k = VUndefined.
Proof.
  destruct v; try reflexivity; cbn [hasOwnProperty prop].
  - destruct (String.eqb k "length"); [discriminate|]. cbn [orb].
    destruct (lookup k (entries (VArr items0))); [discriminate | reflexivity].
  - destruct (lookup k fields); [discriminate | reflexivity].
Qed.

(** A well-formed operation is a copy or, failing that, a transcode with a
    codec name. *)
Lemma wellFormedOperation_kind (operation : value) :
  wellFormedOperation operation = true ->
  truthy (prop operation "copy") = true
  \/ (truthy (prop operation "copy") = false
      /\ truthy (prop operation "transcode") = true
      /\ exists c, prop (prop operation "transcode") "codec" = VStr c).
Proof.
  unfold wellFormedOperation, wellFormedCopy, wellFormedTranscode, hasType.
  intro H. apply andb_prop in H as [_ H].
  destruct (hasOwnProperty operation "copy") eqn:Hc.
  - left. apply andb_prop in H as [H _]. apply callable_truthy, H.
  - right. rewrite (prop_absent _ _ Hc).
    apply andb_prop in H as [_ H]. apply andb_prop in H as [Ho H].
    apply andb_prop in H as [_ H]. apply andb_prop in H as [Hs _].
    repeat split; [apply callable_truthy, Ho|].
    destruct (prop (prop operation "transcode") "codec"); try discriminate Hs.
    eauto.
Qed.

Section Bookkeeping.
Variable regexTest : string -> string -> string -> result bool.
Variable regexMatchAll :
  string -> string -> string -> result (list (list (option string))).

Lemma titleCommands_shape (track : Stream) (rule body : value) (bitrate : option value)
    (o : nat) (cs : list instr) :
  titleCommands regexMatchAll track rule body bitrate o = Ok cs ->
  streamOutputs cs = [] /\ mapInputs cs = [].
Proof.
  unfold titleCommands. destruct (truthy (prop body "title")).
  - destruct (getNewTrackTitle _ _ _ _ _); cbn [bind]; [|discriminate].
    intro H. injection H as <-. split; reflexivity.
  - intro H. injection H as <-. split; reflexivity.
Qed.

Lemma dispositionCommands_shape (body : value) (o : nat) :
  streamOutputs (dispositionCommands body o) = []
  /\ mapInputs (dispositionCommands body o) = [].
Proof.
  unfold dispositionCommands.
  destruct (truthy (prop body "dispositions")); split; reflexivity.
Qed.

(** The commands of one well-formed operation open exactly one output
    track, at [o], mapped from the input [i]. *)
Lemma operationCommands_shape (track : Stream) (rule operation : value)
    (i o : nat) (cs : list instr) :
  wellFormedOperation operation = true ->
  operationCommands regexMatchAll track rule operation i o = Ok cs ->
  streamOutputs cs = [o] /\ mapInputs cs = [i].
Proof.
  intros Hwf. unfold operationCommands.
  destruct (wellFormedOperation_kind _ Hwf) as [Hc | (Hc & Ht & c & Hcodec)];
    rewrite Hc.
  - destruct (titleCommands _ _ _ _ _ _) as [title|] eqn:Et; cbn [bind];
      [|discriminate].
    intro H. injection H as <-.
    destruct (titleCommands_shape _ _ _ _ _ _ Et) as [Ht1 Ht2].
    destruct (dispositionCommands_shape (prop operation "copy") o) as [Hd1 Hd2].
    cbn [streamOutputs mapInputs opensOutput].
    rewrite !streamOutputs_app, !mapInputs_app, Ht1, Ht2, Hd1, Hd2.
    split; reflexivity.
  - rewrite Ht, Hcodec. cbn [bind].
    destruct (titleCommands _ _ _ _ _ _) as [title|] eqn:Et; cbn [bind];
      [|discriminate].
    intro H. injection H as <-.
    destruct (titleCommands_shape _ _ _ _ _ _ Et) as [Ht1 Ht2].
    destruct (dispositionCommands_shape (prop operation "transcode") o) as [Hd1 Hd2].
    cbn [streamOutputs mapInputs opensOutput].
    rewrite !streamOutputs_app, !mapInputs_app, Ht1, Ht2, Hd1, Hd2.
    repeat match goal with
           | |- context [if ?b then _ else _] => destruct b
           | |- context [match ?x with Some _ => _ | None => _ end] => destruct x
           end; split; reflexivity.
Qed.

(** The operations of a rule, all well formed: one output track each,
    at consecutive output indices, all mapped from the same input. *)
Lemma applyOperations_shape (track : Stream) (rule : value) (operations : list value) :
  forall st st',
    forallb wellFormedOperation operations = true ->
    foldM (applyOperation regexMatchAll track rule) operations st = Ok st' ->
    inputTrackIndex st' = inputTrackIndex st
    /\ outputTrackIndex st' = (outputTrackIndex st + List.length operations)%nat
    /\ exists cs,
         audioTracksCommands st' = (audioTracksCommands st ++ cs)%list
         /\ streamOutputs cs = seq (outputTrackIndex st) (List.length operations)
         /\ mapInputs cs = repeat (inputTrackIndex st) (List.length operations).
Proof.
  induction operations as [|op rest IH]; intros st st' Hwf; cbn [foldM].
  - intro H. injection H as <-. rewrite Nat.add_0_r.
    repeat split. exists []. rewrite app_nil_r. repeat split.
  - cbn [forallb] in Hwf. apply andb_prop in Hwf as [Hop Hrest].
    unfold applyOperation at 1.
    destruct (operationCommands _ _ _ _ _ _) as [cs1|] eqn:Ecs; cbn [bind];
      [|discriminate].
    intro H. apply IH in H; [|exact Hrest].
    cbn [inputTrackIndex outputTrackIndex audioTracksCommands] in H.
    destruct H as (Hi & Ho & cs & Hcs & Hs & Hm).
    destruct (operationCommands_shape _ _ _ _ _ _ Hop Ecs) as [Hs1 Hm1].
    repeat split; [exact Hi | cbn [List.length]; lia |].
    exists (cs1 ++ cs)%list. rewrite Hcs, app_assoc.
    rewrite streamOutputs_app, mapInputs_app, Hs, Hm, Hs1, Hm1.
    repeat split.
Qed.

Lemma applyRules_matched (track : Stream) (rules : list value) (st : State) :
  foldM (applyRule regexTest regexMatchAll track) rules (true, st) = Ok (true, st).
Proof. induction rules as [|rule rest IH]; [reflexivity | exact IH]. Qed.

Lemma zero_length_items (operations : value) :
  strictEq (prop operations "length") (VNum 0) = true -> items operations = [].
Proof.
  destruct operations as [| | | | |l|fields]; try discriminate; [|reflexivity].
  cbn [prop String.eqb Ascii.eqb Bool.eqb strictEq items].
  destruct l; [reflexivity | discriminate].
Qed.

(** The loop over the rules applies the operations of the first rule the
    track matches, and of no other. *)
Lemma applyRules_spec (track : Stream) (rules : list value) :
  forall st acc,
    foldM (applyRule regexTest regexMatchAll track) rules (false, st) = Ok acc ->
    exists r,
      firstMatching regexTest track rules = Ok r
      /\ match r with
         | None => acc = (false, st)
         | Some rule =>
             In rule rules
             /\ exists st',
                  acc = (true, st')
                  /\ foldM (applyOperation regexMatchAll track rule)
                       (items (prop rule "operations")) st = Ok st'
         end.
Proof.
  induction rules as [|rule rest IH]; intros st acc; cbn [foldM firstMatching].
  - intro H. injection H as <-. exists None. split; reflexivity.
  - unfold applyRule at 1. cbn [negb].
    destruct (trackMatches regexTest track (prop rule "match")) as [[|]|];
      cbn [bind negb]; [| |discriminate].
    + intro H. exists (Some rule). split; [reflexivity|].
      split; [left; reflexivity|].
      destruct (strictEq (prop (prop rule "operations") "length") (VNum 0)) eqn:Ez.
      * cbn [bind] in H. rewrite applyRules_matched in H. injection H as <-.
        exists st. rewrite (zero_length_items _ Ez). split; reflexivity.
      * destruct (foldM (applyOperation regexMatchAll track rule) _ st) as [st'|];
          cbn [bind] in H; [|discriminate].
        rewrite applyRules_matched in H. injection H as <-.
        exists st'. split; reflexivity.
    + intro H. apply IH in H. destruct H as (r & Hr & Hcase).
      exists r. split; [exact Hr|].
      destruct r as [rule'|]; [|exact Hcase].
      destruct Hcase as [Hin Hst]. split; [right; exact Hin | exact Hst].
Qed.

(** One track: its outcome is that of the first matching rule; the input
    index advances by one, the output index by the number of output
    tracks of the outcome, which are opened at consecutive indices and
    mapped from this track. *)
Lemma processTrack_spec (rules : list value) (st st' : State) (track : Stream) :
  (forall rule, In rule rules ->
     forallb wellFormedOperation (items (prop rule "operations")) = true) ->
  processTrack regexTest regexMatchAll rules st track = Ok st' ->
  exists oc cs,
    outcomeOf regexTest track rules = Ok oc
    /\ inputTrackIndex st' = S (inputTrackIndex st)
    /\ outputTrackIndex st' = (outputTrackIndex st + outputsOf oc)%nat
    /\ audioTracksCommands st' = (audioTracksCommands st ++ cs)%list
    /\ streamOutputs cs = seq (outputTrackIndex st) (outputsOf oc)
    /\ mapInputs cs = repeat (inputTrackIndex st) (outputsOf oc).
Proof.
  intros Hwf. unfold processTrack, outcomeOf.
  destruct (foldM (applyRule regexTest regexMatchAll track) rules (false, st))
    as [acc|] eqn:Eacc; cbn [bind]; [|discriminate].
  destruct (applyRules_spec _ _ _ _ Eacc) as (r & Hr & Hcase). rewrite Hr.
  cbn [bind]. destruct r as [rule|].
  - destruct Hcase as (Hin & st1 & -> & Hops).
    intro H. injection H as <-.
    cbn [inputTrackIndex outputTrackIndex audioTracksCommands].
    destruct (applyOperations_shape _ _ _ _ _ (Hwf rule Hin) Hops)
      as (Hi & Ho & cs & Hcs & Hs & Hm).
    set (oc := match items (prop rule "operations") with
               | [] => Dropped
               | _ :: _ => Applied rule (items (prop rule "operations"))
               end).
    assert (Hn : outputsOf oc = List.length (items (prop rule "operations"))).
    { unfold oc. destruct (items (prop rule "operations")); reflexivity. }
    exists oc, cs. rewrite Hn, Hi.
    split; [unfold oc; destruct (items (prop rule "operations")); reflexivity|].
    repeat split; assumption.
  - subst acc. intro H. injection H as <-.
    cbn [inputTrackIndex outputTrackIndex audioTracksCommands].
    exists VerbatimCopy, [MapCopy (inputTrackIndex st) (outputTrackIndex st)].
    cbn [outputsOf]. rewrite Nat.add_1_r. repeat split.
Qed.

Lemma processTracks_from (rules : list value) (tracks : list Stream) :
  (forall rule, In rule rules ->
     forallb wellFormedOperation (items (prop rule "operations")) = true) ->
  forall st st',
    foldM (processTrack regexTest regexMatchAll rules) tracks st = Ok st' ->
    exists outcomes cs,
      Forall2 (fun track oc => outcomeOf regexTest track rules = Ok oc) tracks outcomes
      /\ inputTrackIndex st' = (inputTrackIndex st + List.length tracks)%nat
      /\ outputTrackIndex st'
         = (outputTrackIndex st + list_sum (map outputsOf outcomes))%nat
      /\ audioTracksCommands st' = (audioTracksCommands st ++ cs)%list
      /\ streamOutputs cs
         = seq (outputTrackIndex st) (list_sum (map outputsOf outcomes))
      /\ mapInputs cs = inputsFrom (inputTrackIndex st) outcomes.
Proof.
  intro Hwf. induction tracks as [|track rest IH]; intros st st'; cbn [foldM].
  - intro H. injection H as <-. exists [], [].
    cbn [map list_sum List.length inputsFrom]. rewrite !Nat.add_0_r, app_nil_r.
    repeat split. constructor.
  - destruct (processTrack regexTest regexMatchAll rules st track) as [st1|] eqn:E1;
      cbn [bind]; [|discriminate].
    intro H. apply IH in H. destruct H as (ocs & cs & HF & Hi & Ho & Hc & Hs & Hm).
    destruct (processTrack_spec _ _ _ _ Hwf E1)
      as (oc & cs1 & Hoc & Hi1 & Ho1 & Hc1 & Hs1 & Hm1).
    exists (oc :: ocs), (cs1 ++ cs)%list.
    cbn [map List.length inputsFrom].
    change (list_sum (outputsOf oc :: map outputsOf ocs))
      with (outputsOf oc + list_sum (map outputsOf ocs))%nat.
    rewrite streamOutputs_app, mapInputs_app, Hs, Hm, Hs1, Hm1, Hi, Ho, Hc,
      Hi1, Ho1, Hc1, seq_app, app_assoc.
    repeat split; try lia. constructor; assumption.
Qed.

End Bookkeeping.

Section Returns.
Variable regexTest : string -> string -> string -> result bool.
Variable regexMatchAll :
  string -> string -> string -> result (list (list (option string))).
Hypothesis regexTest_answers : answers regexTest.
Hypothesis regexMatchAll_answers : answers regexMatchAll.

Lemma allConditions_returns (v : value) (conditions : list value) :
  forallb (hasType "string") conditions = true ->
  exists b, allConditions v conditions = Ok b.
Proof.
  induction conditions as [|c rest IH]; cbn [forallb allConditions]; [eauto|].
  intro H. apply andb_prop in H as [Hc Hrest].
  destruct c; try discriminate Hc. cbn [matchesIntCondition bind].
  match goal with |- context [if ?b then allConditions _ _ else _] => destruct b end;
    eauto.
Qed.

Lemma selector_returns (v : value) (selector : value) :
  allStrings selector = true ->
  exists b, (if truthy selector then allConditions v (asArray selector) else Ok true)
            = Ok b.
Proof.
  unfold allStrings. destruct (truthy selector); cbn [implb]; [|eauto].
  apply allConditions_returns.
Qed.

Lemma trackMatches_returns (track : Stream) (matchRule : value) :
  wellFormedCodecs (prop matchRule "codecs") = true ->
  allStrings (prop matchRule "channels") = true ->
  allStrings (prop matchRule "bitrate") = true ->
  exists b, trackMatches regexTest track matchRule = Ok b.
Proof.
  intros Hc Hch Hbr. unfold trackMatches.
  destruct (selector_returns (VNum (channels track)) _ Hch) as [b1 ->].
  destruct (selector_returns (orUndefined (bit_rate track)) _ Hbr) as [b2 ->].
  destruct (prop matchRule "codecs"); try discriminate Hc; cbn [bind];
    (match goal with |- context [if ?b then Ok false else _] => destruct b end;
     [eauto|]);
    destruct b1; cbn [negb]; eauto;
    destruct b2; cbn [negb]; eauto;
    repeat match goal with
           | |- context [if ?b then _ else _] => destruct b; eauto
           end;
    match goal with
    | |- context [regexTest ?p ?f ?s] =>
        destruct (regexTest_answers p f s) as [found ->]; cbn [bind]; eauto
    end.
Qed.

Lemma getNewTrackTitle_returns (track : Stream) (matchTitle operation : value)
    (bitrate : option value) :
  quietCodec operation = true ->
  exists t, getNewTrackTitle regexMatchAll track matchTitle operation bitrate = Ok t.
Proof.
  intro Hq. unfold getNewTrackTitle.
  assert (Hm : exists t0,
             (if truthy matchTitle
              then matches <- regexMatchAll (toString (prop matchTitle "pattern"))
                                (if truthy (prop matchTitle "caseSensitive")
                                 then "g" else "gi")
                                (orDefault (tag_title track) EmptyString) ;;
                   Ok (substituteMatches (toString (prop operation "title")) matches)
              else Ok (toString (prop operation "title"))) = Ok t0).
  { destruct (truthy matchTitle); [|eauto].
    match goal with
    | |- context [regexMatchAll ?p ?f ?s] =>
        destruct (regexMatchAll_answers p f s) as [ms ->]; cbn [bind]; eauto
    end. }
  destruct Hm as [t0 ->]. cbn [bind].
  unfold quietCodec, hasType in Hq.
  destruct (truthy (prop operation "codec")) eqn:Et; cbn [negb orb andb] in *.
  - destruct (prop operation "codec"); try discriminate Hq.
    destruct (negb (strictEq (VStr s) (VStr "copy"))); cbn [bind]; eauto.
  - cbn [bind]. eauto.
Qed.

Lemma titleCommands_returns (track : Stream) (rule body : value)
    (bitrate : option value) (o : nat) :
  quietCodec body = true ->
  exists cs, titleCommands regexMatchAll track rule body bitrate o = Ok cs.
Proof.
  intro Hq. unfold titleCommands. destruct (truthy (prop body "title")); [|eauto].
  destruct (getNewTrackTitle_returns track (prop (prop rule "match") "title")
              body bitrate Hq) as [t ->].
  cbn [bind]. eauto.
Qed.

Lemma operationCommands_returns (track : Stream) (rule operation : value) (i o : nat) :
  wellFormedOperation operation = true ->
  quietOperation operation = true ->
  exists cs, operationCommands regexMatchAll track rule operation i o = Ok cs.
Proof.
  intros Hwf Hq. unfold operationCommands, quietOperation in *.
  destruct (wellFormedOperation_kind _ Hwf) as [Hc | (Hc & Ht & c & Hcodec)];
    rewrite Hc in *; cbn [implb] in Hq.
  - destruct (titleCommands_returns track rule (prop operation "copy")
                (bit_rate track) o Hq) as [cs ->].
    cbn [bind]. eauto.
  - rewrite Ht, Hcodec. cbn [bind].
    match goal with
    | |- context [titleCommands regexMatchAll track rule ?body ?b o] =>
        destruct (titleCommands_returns track rule body b o) as [cs ->]
    end.
    + unfold quietCodec, hasType. rewrite Hcodec. apply orb_true_r.
    + cbn [bind]. eauto.
Qed.

Lemma applyOperations_returns (track : Stream) (rule : value) (operations : list value) :
  forallb wellFormedOperation operations = true ->
  forallb quietOperation operations = true ->
  forall st, exists st',
    foldM (applyOperation regexMatchAll track rule) operations st = Ok st'.
Proof.
  induction operations as [|op rest IH]; cbn [forallb foldM]; [eauto|].
  intros Hwf Hq st.
  apply andb_prop in Hwf as [Hwf1 Hwf2]. apply andb_prop in Hq as [Hq1 Hq2].
  unfold applyOperation at 1.
  destruct (operationCommands_returns track rule op (inputTrackIndex st)
              (outputTrackIndex st) Hwf1 Hq1) as [cs ->].
  cbn [bind]. apply IH; assumption.
Qed.

Lemma applyRules_returns (track : Stream) (rules : list value) :
  Forall passable rules ->
  forall acc, exists acc',
    foldM (applyRule regexTest regexMatchAll track) rules acc = Ok acc'.
Proof.
  induction 1 as [|rule rest (Hc & Hwf & Hq) _ IH]; intro acc; cbn [foldM]; [eauto|].
  unfold raiseFree in Hq. apply andb_prop in Hq as [Hch Hq].
  apply andb_prop in Hq as [Hbr Hq].
  unfold applyRule at 1. destruct acc as [[|] st]; cbn [bind]; [apply IH|].
  destruct (trackMatches_returns track (prop rule "match") Hc Hch Hbr) as [[|] ->];
    cbn [bind negb]; [|apply IH].
  destruct (strictEq (prop (prop rule "operations") "length") (VNum 0));
    cbn [bind]; [apply IH|].
  destruct (applyOperations_returns track rule _ Hwf Hq st) as [st' ->].
  cbn [bind]. apply IH.
Qed.

Lemma processTracks_returns (rules : list value) (tracks : list Stream) :
  Forall passable rules ->
  forall st, exists st',
    foldM (processTrack regexTest regexMatchAll rules) tracks st = Ok st'.
Proof.
  intro Hp. induction tracks as [|track rest IH]; intro st; cbn [foldM]; [eauto|].
  unfold processTrack at 1.
  destruct (applyRules_returns track rules Hp (false, st)) as [[matched st1] ->].
  cbn [bind]. apply IH.
Qed.

End Returns.

Lemma normalizePattern_operations (rule : value) :
  prop (Validator.normalizePattern rule) "operations" = prop rule "operations".
Proof.
  unfold Validator.normalizePattern.
  destruct (hasOwnProperty (prop rule "match") "title"); [|reflexivity].
  destruct rule; try reflexivity.
  unfold setProp at 1. rewrite prop_setField. reflexivity.
Qed.

Lemma validated_operations (doc : Validator.parsed) (rules : list value) :
  Validator.validateTranscodeRules doc = inr rules ->
  forall rule, In rule rules ->
    forallb wellFormedOperation (items (prop rule "operations")) = true.
Proof.
  intros Hv rule Hin.
  destruct (validateTranscodeRules_inr _ _ Hv) as (original & _ & Hwf & ->).
  apply in_map_iff in Hin as (rule0 & <- & Hin0).
  rewrite normalizePattern_operations.
  rewrite forallb_forall in Hwf. specialize (Hwf rule0 Hin0).
  unfold wellFormedRule in Hwf.
  repeat (apply andb_prop in Hwf as [_ Hwf]). exact Hwf.
Qed.

Lemma normalizePattern_codecs (rule : value) :
  prop (prop (Validator.normalizePattern rule) "match") "codecs"
  = prop (prop rule "match") "codecs".
Proof.
  unfold Validator.normalizePattern.
  destruct (hasOwnProperty (prop rule "match") "title"); [|reflexivity].
  destruct rule; try reflexivity.
  unfold setProp at 1. rewrite prop_setField. cbn [String.eqb Ascii.eqb Bool.eqb].
  destruct (prop (VObj fields) "match"); try reflexivity.
  unfold setProp at 1. rewrite prop_setField. reflexivity.
Qed.

Lemma validated_passable (doc : Validator.parsed) (rules : list value) :
  Validator.validateTranscodeRules doc = inr rules ->
  forallb raiseFree rules = true ->
  Forall passable rules.
Proof.
  intros Hv Hq. apply Forall_forall. intros rule Hin.
  split; [|split].
  - destruct (validateTranscodeRules_inr _ _ Hv) as (original & _ & Hwf & ->).
    apply in_map_iff in Hin as (rule0 & <- & Hin0).
    rewrite normalizePattern_codecs.
    rewrite forallb_forall in Hwf. specialize (Hwf rule0 Hin0).
    unfold wellFormedRule, wellFormedMatch in Hwf.
    do 3 (apply andb_prop in Hwf as [_ Hwf]). apply andb_prop in Hwf as [Hwf _].
    do 2 (apply andb_prop in Hwf as [_ Hwf]). apply andb_prop in Hwf as [Hwf _].
    exact Hwf.
  - exact (validated_operations _ _ Hv rule Hin).
  - rewrite forallb_forall in Hq. exact (Hq rule Hin).
Qed.




(** * Further properties of the plugin *)

(** ** Numeric selectors: [matchesIntCondition] *)

Lemma parseDigits_step (c : ascii) (d : Z) (acc : option Z) (s : string) :
  Js.digitValue c = Some d -> (d <? 10) = true ->
  Js.parseDigits 10 acc (String c s)
  = Js.parseDigits 10 (Some (match acc with Some a => a * 10 + d | None => d end)) s.
Proof. intros Hd Hlt. cbn [Js.parseDigits]. rewrite Hd, Hlt. reflexivity. Qed.

Lemma parseDigits_acc (d : Decimal.uint) :
  forall acc : positive,
    Js.parseDigits 10 (Some (Z.pos acc)) (NilEmpty.string_of_uint d)
    = Some (Z.pos (Pos.of_uint_acc d acc)).
Proof.
  induction d; intro acc; cbn [NilEmpty.string_of_uint Pos.of_uint_acc];
    [reflexivity | ..];
    (erewrite parseDigits_step; [| vm_compute; reflexivity | reflexivity];
     rewrite <- IHd; f_equal; f_equal; lia).
Qed.

Lemma parseDigits_zero (d : Decimal.uint) :
  Js.parseDigits 10 (Some 0) (NilEmpty.string_of_uint d)
  = Some (Z.of_N (Pos.of_uint d)).
Proof.
  induction d; cbn [NilEmpty.string_of_uint Pos.of_uint]; [reflexivity | ..];
    (erewrite parseDigits_step; [| vm_compute; reflexivity | reflexivity]);
    [exact IHd | ..]; apply parseDigits_acc.
Qed.

Lemma parseDigits_uint (d : Decimal.uint) :
  d <> Decimal.Nil ->
  Js.parseDigits 10 None (NilEmpty.string_of_uint d) = Some (Z.of_N (Pos.of_uint d)).
Proof.
  intro Hd. rewrite <- parseDigits_zero.
  destruct d; [congruence | ..];
    cbn [NilEmpty.string_of_uint];
    (do 2 (erewrite parseDigits_step; [| vm_compute; reflexivity | reflexivity]));
    reflexivity.
Qed.

Lemma prefix_nil (s : string) : String.prefix EmptyString s = true.
Proof. destruct s; reflexivity. Qed.

Lemma prefix_cons (a b : ascii) (p t : string) :
  String.prefix (String a p) (String b t) = andb (Ascii.eqb a b) (String.prefix p t).
Proof.
  cbn [String.prefix]. destruct (Ascii.ascii_dec a b) as [->|Hne].
  - rewrite Ascii.eqb_refl. reflexivity.
  - destruct (Ascii.eqb_spec a b); [contradiction | reflexivity].
Qed.

(** [parseInt] on a text that starts with neither white space, a sign nor
    a hexadecimal prefix, and on such a text after a minus sign *)
Lemma parseInt_plain (c : ascii) (rest : string) :
  Js.isWhiteSpace c = false ->
  Ascii.eqb c "-" = false -> Ascii.eqb c "+" = false ->
  String.prefix "0x" (String c rest) = false ->
  String.prefix "0X" (String c rest) = false ->
  Js.parseInt (String c rest)
  = match Js.parseDigits 10 None (String c rest) with
    | Some v => Some v
    | None => None
    end
  /\ Js.parseInt (String "-" (String c rest))
     = match Js.parseDigits 10 None (String c rest) with
       | Some v => Some (- v)
       | None => None
       end.
Proof.
  intros Hw Hm Hp Hx HX. unfold Js.parseInt. split.
  - cbn [Js.trimStart]. rewrite Hw, Hm, Hp. cbv beta iota.
    rewrite Hx, HX. reflexivity.
  - change (Js.trimStart (String "-" (String c rest))) with (String "-" (String c rest)).
    cbv beta iota. rewrite (Ascii.eqb_refl "-"). cbv beta iota.
    rewrite Hx, HX. reflexivity.
Qed.

Lemma uint_no_hex (d : Decimal.uint) (x : ascii) :
  Ascii.eqb x "0" = false -> Ascii.eqb x "1" = false -> Ascii.eqb x "2" = false ->
  Ascii.eqb x "3" = false -> Ascii.eqb x "4" = false -> Ascii.eqb x "5" = false ->
  Ascii.eqb x "6" = false -> Ascii.eqb x "7" = false -> Ascii.eqb x "8" = false ->
  Ascii.eqb x "9" = false ->
  String.prefix (String "0" (String x EmptyString)) (NilEmpty.string_of_uint d) = false.
Proof.
  intros H0 H1 H2 H3 H4 H5 H6 H7 H8 H9.
  destruct d; cbn [NilEmpty.string_of_uint]; [reflexivity | | ..];
    rewrite prefix_cons; try reflexivity.
  change (Ascii.eqb "0" "0") with true. cbn [andb].
  destruct d; cbn [NilEmpty.string_of_uint]; [reflexivity | ..];
    rewrite prefix_cons, ?H0, ?H1, ?H2, ?H3, ?H4, ?H5, ?H6, ?H7, ?H8, ?H9;
    reflexivity.
Qed.

Lemma parseInt_uint (d : Decimal.uint) :
  d <> Decimal.Nil ->
  Js.parseInt (NilEmpty.string_of_uint d) = Some (Z.of_N (Pos.of_uint d))
  /\ Js.parseInt (String "-" (NilEmpty.string_of_uint d))
     = Some (- Z.of_N (Pos.of_uint d)).
Proof.
  intro Hd.
  pose proof (parseDigits_uint d Hd) as Hp.
  pose proof (uint_no_hex d "x" eq_refl eq_refl eq_refl eq_refl eq_refl eq_refl
                eq_refl eq_refl eq_refl eq_refl) as Hx.
  pose proof (uint_no_hex d "X" eq_refl eq_refl eq_refl eq_refl eq_refl eq_refl
                eq_refl eq_refl eq_refl eq_refl) as HX.
  destruct d; [congruence | ..]; cbn [NilEmpty.string_of_uint] in *;
    (match goal with
     | |- Js.parseInt (String ?c ?rest) = _ /\ _ =>
         destruct (parseInt_plain c rest eq_refl eq_refl eq_refl Hx HX) as [-> ->]
     end; rewrite Hp; split; reflexivity).
Qed.

(** [parseInt] reads back the decimal text of an integer. *)
Lemma parseInt_numToString (z : Z) : Js.parseInt (Js.numToString z) = Some z.
Proof.
  destruct z as [|p|p]; [reflexivity | |]; unfold Js.numToString; cbn [Z.to_int].
  - pose proof (DecimalPos.Unsigned.to_uint_nonnil p) as Hn.
    cbn [NilZero.string_of_int]. unfold NilZero.string_of_uint.
    destruct (Pos.to_uint p) eqn:E; [congruence | ..];
      rewrite (proj1 (parseInt_uint _ Hn)), <- E, DecimalPos.Unsigned.of_to;
      reflexivity.
  - pose proof (DecimalPos.Unsigned.to_uint_nonnil p) as Hn.
    cbn [NilZero.string_of_int]. unfold NilZero.string_of_uint.
    destruct (Pos.to_uint p) eqn:E; [congruence | ..];
      rewrite (proj2 (parseInt_uint _ Hn)), <- E, DecimalPos.Unsigned.of_to;
      reflexivity.
Qed.

(** The decimal text of an integer starts with none of the operators. *)
Lemma numToString_head (z : Z) :
  exists c rest,
    Js.numToString z = String c rest
    /\ Ascii.eqb "<" c = false /\ Ascii.eqb ">" c = false /\ Ascii.eqb "=" c = false.
Proof.
  destruct z as [|p|p]; unfold Js.numToString; cbn [Z.to_int NilZero.string_of_int].
  - do 2 eexists. repeat split.
  - unfold NilZero.string_of_uint.
    destruct (Pos.to_uint p); cbn [NilEmpty.string_of_uint];
      do 2 eexists; repeat split.
  - do 2 eexists. repeat split.
Qed.

(** The number that the decimal text of an integer converts to *)
Lemma decimalDigits_step (c : ascii) (d : Z) (acc : option Z) (s : string) :
  Js.digitValue c = Some d -> (d <? 10) = true ->
  Js.decimalDigits acc (String c s)
  = Js.decimalDigits (Some (match acc with Some a => a * 10 | None => 0 end + d)) s.
Proof.
  intros Hd Hlt. cbn [Js.decimalDigits]. unfold Js.digitValue in Hd.
  apply Z.ltb_lt in Hlt.
  destruct (andb (Nat.leb 48 (nat_of_ascii c)) (Nat.leb (nat_of_ascii c) 57)).
  - injection Hd as <-. reflexivity.
  - exfalso.
    destruct (andb (Nat.leb 97 (nat_of_ascii c)) (Nat.leb (nat_of_ascii c) 122)) eqn:E1.
    + injection Hd as <-. apply andb_prop in E1 as [E1 _].
      apply Nat.leb_le in E1. lia.
    + destruct (andb (Nat.leb 65 (nat_of_ascii c)) (Nat.leb (nat_of_ascii c) 90)) eqn:E2;
        [|discriminate Hd].
      injection Hd as <-. apply andb_prop in E2 as [E2 _].
      apply Nat.leb_le in E2. lia.
Qed.

Lemma decimalDigits_parseDigits (d : Decimal.uint) :
  forall acc,
    Js.decimalDigits acc (NilEmpty.string_of_uint d)
    = Js.parseDigits 10 acc (NilEmpty.string_of_uint d).
Proof.
  induction d; intro acc; cbn [NilEmpty.string_of_uint]; [reflexivity | ..];
    (erewrite decimalDigits_step; [| vm_compute; reflexivity | reflexivity];
     erewrite parseDigits_step; [| vm_compute; reflexivity | reflexivity];
     rewrite IHd; destruct acc; f_equal; f_equal; lia).
Qed.

Lemma trimEnd_uint (d : Decimal.uint) :
  Js.trimEnd (NilEmpty.string_of_uint d) = NilEmpty.string_of_uint d.
Proof.
  induction d; cbn [NilEmpty.string_of_uint Js.trimEnd]; [reflexivity | ..];
    rewrite IHd; destruct (NilEmpty.string_of_uint d); reflexivity.
Qed.

Lemma trimStart_plain (c : ascii) (s : string) :
  Js.isWhiteSpace c = false -> Js.trimStart (String c s) = String c s.
Proof. intro H. cbn [Js.trimStart]. rewrite H. reflexivity. Qed.

Lemma stringToNumber_uint (d : Decimal.uint) :
  d <> Decimal.Nil ->
  Js.stringToNumber (NilEmpty.string_of_uint d) = Some (Z.of_N (Pos.of_uint d))
  /\ Js.stringToNumber (String "-" (NilEmpty.string_of_uint d))
     = Some (- Z.of_N (Pos.of_uint d)).
Proof.
  intro Hd. pose proof (parseDigits_uint d Hd) as Hp.
  pose proof (trimEnd_uint d) as Ht. pose proof (decimalDigits_parseDigits d None) as Hq.
  unfold Js.stringToNumber.
  assert (Hs : Js.trimEnd (String "-" (NilEmpty.string_of_uint d))
               = String "-" (NilEmpty.string_of_uint d)).
  { cbn [Js.trimEnd]. rewrite Ht.
    destruct d; [congruence | ..]; reflexivity. }
  split.
  - destruct d; [congruence | ..]; cbn [NilEmpty.string_of_uint] in *;
      rewrite trimStart_plain by reflexivity; rewrite Ht;
      cbn [Ascii.eqb Bool.eqb]; rewrite Hq, Hp; reflexivity.
  - rewrite trimStart_plain by reflexivity. rewrite Hs.
    cbn [Ascii.eqb Bool.eqb]. rewrite Hq, Hp. reflexivity.
Qed.

Lemma stringToNumber_numToString (z : Z) :
  Js.stringToNumber (Js.numToString z) = Some z.
Proof.
  destruct z as [|p|p]; [reflexivity | |]; unfold Js.numToString; cbn [Z.to_int].
  - pose proof (DecimalPos.Unsigned.to_uint_nonnil p) as Hn.
    cbn [NilZero.string_of_int]. unfold NilZero.string_of_uint.
    destruct (Pos.to_uint p) eqn:E; [congruence | ..];
      rewrite (proj1 (stringToNumber_uint _ Hn)), <- E, DecimalPos.Unsigned.of_to;
      reflexivity.
  - pose proof (DecimalPos.Unsigned.to_uint_nonnil p) as Hn.
    cbn [NilZero.string_of_int]. unfold NilZero.string_of_uint.
    destruct (Pos.to_uint p) eqn:E; [congruence | ..];
      rewrite (proj2 (stringToNumber_uint _ Hn)), <- E, DecimalPos.Unsigned.of_to;
      reflexivity.
Qed.

(** The five forms of a numeric condition on a decimal operand, for a
    value and an operand in the range where a double is exact.  On a
    number, [<=n] and [>=n] are inclusive, [<n] and [>n] exclusive, and a
    bare [n] is equality.  On the decimal text of a number, as the probe
    may write a bit rate, the four relational forms compare the number
    that the text denotes, and a bare [n] never holds, for any text. *)
Theorem matchesIntCondition_operators (v n : Z) :
  Z.abs v <= 2 ^ 53 ->
  Z.abs n <= 2 ^ 53 ->
  let text := VStr (Js.numToString v) in
  let operand := Js.numToString n in
  (matchesIntCondition (VNum v) (VStr ("<=" ++ operand)) = Ok (v <=? n)
   /\ matchesIntCondition (VNum v) (VStr (">=" ++ operand)) = Ok (v >=? n)
   /\ matchesIntCondition (VNum v) (VStr ("<" ++ operand)) = Ok (v <? n)
   /\ matchesIntCondition (VNum v) (VStr (">" ++ operand)) = Ok (v >? n)
   /\ matchesIntCondition (VNum v) (VStr operand) = Ok (v =? n))
  /\ (matchesIntCondition text (VStr ("<=" ++ operand)) = Ok (v <=? n)
      /\ matchesIntCondition text (VStr (">=" ++ operand)) = Ok (v >=? n)
      /\ matchesIntCondition text (VStr ("<" ++ operand)) = Ok (v <? n)
      /\ matchesIntCondition text (VStr (">" ++ operand)) = Ok (v >? n))
  /\ forall s, matchesIntCondition (VStr s) (VStr operand) = Ok false.
Proof.
  intros _ _ text operand. unfold text, operand.
  pose proof (parseInt_numToString n) as Hp.
  pose proof (stringToNumber_numToString v) as Hv.
  destruct (numToString_head n) as (c & rest & E & Hlt & Hgt & Heq).
  unfold matchesIntCondition, Js.startsWith, strictEqNumber, toNumber.
  cbn [append Js.slice]. rewrite Hp, Hv. rewrite E.
  rewrite !prefix_cons, !prefix_nil, ?Hlt, ?Hgt, ?Heq.
  repeat split; reflexivity.
Qed.

Lemma matchesIntCondition_operators_witness :
  matchesIntCondition (VNum 6) (VStr "<=6") = Ok true
  /\ matchesIntCondition (VStr "768000") (VStr ">640000") = Ok true
  /\ matchesIntCondition (VStr "640000") (VStr "640000") = Ok false.
Proof.
  split; [|split].
  - exact (proj1 (proj1 (matchesIntCondition_operators 6 6
                           ltac:(vm_compute; discriminate)
                           ltac:(vm_compute; discriminate)))).
  - exact (proj2 (proj2 (proj2 (proj1 (proj2
             (matchesIntCondition_operators 768000 640000
                ltac:(vm_compute; discriminate)
                ltac:(vm_compute; discriminate))))))).
  - exact (proj2 (proj2 (matchesIntCondition_operators 0 640000
                           ltac:(vm_compute; discriminate)
                           ltac:(vm_compute; discriminate)))
             "640000").
Defined.

(** A selector list is a conjunction: a value passes exactly when it
    passes every condition of the list. *)
Theorem allConditions_conjunction (v : value) (conditions : list value) :
  allConditions v conditions = Ok true
  <-> forall c, In c conditions -> matchesIntCondition v c = Ok true.
Proof.
  induction conditions as [|c rest IH]; cbn [allConditions In].
  - split; [intros _ c [] | reflexivity].
  - destruct (matchesIntCondition v c) as [[|]|e] eqn:E; cbn [bind].
    + rewrite IH. split.
      * intros H c' [<-|Hin]; [exact E | exact (H c' Hin)].
      * intros H c' Hin. apply H. right. exact Hin.
    + split; [discriminate|]. intro H.
      specialize (H c (or_introl eq_refl)). rewrite E in H. discriminate H.
    + split; [discriminate|]. intro H.
      specialize (H c (or_introl eq_refl)). rewrite E in H. discriminate H.
Qed.

Lemma matchesIntCondition_absent (condition : value) :
  matchesIntCondition VUndefined condition <> Ok true.
Proof.
  destruct condition; cbn [matchesIntCondition]; try discriminate.
  repeat match goal with |- context [if ?b then _ else _] => destruct b end;
    discriminate.
Qed.

(** A track that reports no bit rate matches no rule that has a bitrate
    selector with at least one condition. *)
Theorem absent_bitrate_never_matches
    (regexTest : string -> string -> string -> result bool)
    (track : Stream) (matchRule : value) :
  bit_rate track = None ->
  truthy (prop matchRule "bitrate") = true ->
  asArray (prop matchRule "bitrate") <> [] ->
  trackMatches regexTest track matchRule <> Ok true.
Proof.
  intros Hnone Htruthy Hne H. unfold trackMatches in H.
  rewrite Hnone, Htruthy in H. cbn [orUndefined] in H.
  assert (Hb : allConditions VUndefined (asArray (prop matchRule "bitrate")) <> Ok true).
  { destruct (asArray (prop matchRule "bitrate")) as [|c rest]; [congruence|].
    cbn [allConditions]. pose proof (matchesIntCondition_absent c) as Hc.
    destruct (matchesIntCondition VUndefined c) as [[|]|]; cbn [bind];
      [congruence | discriminate | discriminate]. }
  destruct (allConditions VUndefined (asArray (prop matchRule "bitrate"))) as [[|]|];
    [congruence | |];
    repeat match type of H with
           | context [bind ?m _] =>
               match m with
               | Ok _ => cbn [bind negb] in H
               | Throws _ => cbn [bind] in H
               | _ => destruct m as [[|]|]
               end
           | context [if ?b then _ else _] => destruct b
           | _ => discriminate H
           end.
Qed.

Lemma absent_bitrate_never_matches_witness :
  trackMatches Examples.wordTest Examples.truehdTrack
    (VObj [("codecs", VStr "*"); ("bitrate", VStr ">=0")]) <> Ok true.
Proof.
  exact (absent_bitrate_never_matches Examples.wordTest Examples.truehdTrack
           (VObj [("codecs", VStr "*"); ("bitrate", VStr ">=0")])
           eq_refl eq_refl ltac:(discriminate)).
Defined.

(** The fancy rendering of a channel count: [Mono] for 1, [Stereo] for 2,
    and the count less one followed by [.1] for any other number (so
    [5.1] for 6, and [-1.1] for an unknown count of 0). *)
Theorem getFancyChannels_number (n : Z) :
  getFancyChannels (VNum n)
  = if n =? 1 then "Mono"
    else if n =? 2 then "Stereo"
    else Js.numToString (n - 1) ++ ".1".
Proof.
  unfold getFancyChannels. cbn [toString]. rewrite parseInt_numToString. reflexivity.
Qed.

(** A rule that requires a disposition flag does not match a track that
    lacks the flag or carries another value for it. *)
Theorem unmet_disposition_never_matches
    (regexTest : string -> string -> string -> result bool)
    (track : Stream) (matchRule : value) (flag : string) (required : value) :
  truthy (prop matchRule "dispositions") = true ->
  In (flag, required) (entries (prop matchRule "dispositions")) ->
  match lookup flag (disposition track) with
  | Some x => strictEq x required
  | None => false
  end = false ->
  trackMatches regexTest track matchRule <> Ok true.
Proof.
  intros Htruthy Hin Hunmet H. unfold trackMatches in H. rewrite Htruthy in H.
  match type of H with
  | context [forallb ?f ?l] =>
      assert (Hf : forallb f l = false);
      [ destruct (forallb f l) eqn:E; [|reflexivity];
        rewrite forallb_forall in E; specialize (E _ Hin); cbv beta iota in E;
        rewrite Hunmet in E; discriminate E
      | rewrite Hf in H ]
  end.
  cbn [negb andb] in H.
  repeat match type of H with
         | context [bind ?m _] =>
             match m with
             | Ok _ => cbn [bind negb] in H
             | Throws _ => cbn [bind] in H
             | _ => destruct m as [[|]|]
             end
         | context [if ?b then _ else _] => destruct b
         | _ => discriminate H
         end.
Qed.

Lemma unmet_disposition_never_matches_witness :
  trackMatches Examples.wordTest Examples.stereoAac
    (VObj [("codecs", VStr "*"); ("dispositions", VObj [("comment", VNum 1)])])
  <> Ok true.
Proof.
  exact (unmet_disposition_never_matches Examples.wordTest Examples.stereoAac
           (VObj [("codecs", VStr "*"); ("dispositions", VObj [("comment", VNum 1)])])
           "comment" (VNum 1) eq_refl (or_introl eq_refl) eq_refl).
Defined.

(** The negated codec selector compares without case on both sides: [!c]
    rejects every track whose codec is [c] up to case, whatever the other
    selectors are. *)
Theorem negated_codec_rejects_up_to_case
    (regexTest : string -> string -> string -> result bool)
    (track : Stream) (matchRule : value) (c : string) :
  prop matchRule "codecs" = VStr ("!" ++ c) ->
  Js.toLowerCase (codec_name track) = Js.toLowerCase c ->
  trackMatches regexTest track matchRule = Ok false.
Proof.
  intros Hcodecs Hsame. unfold trackMatches. rewrite Hcodecs.
  change (Js.slice 1 ("!" ++ c)) with c.
  change (String.eqb ("!" ++ c) "*") with false.
  rewrite Hsame, String.eqb_refl. reflexivity.
Qed.

Lemma negated_codec_rejects_up_to_case_witness :
  trackMatches Examples.wordTest Examples.ac3Track Examples.negatedUpperCaseCodec
  = Ok false.
Proof.
  exact (negated_codec_rejects_up_to_case Examples.wordTest Examples.ac3Track
           Examples.negatedUpperCaseCodec "AC3" eq_refl eq_refl).
Defined.

(** First match wins: once a rule matches a track, the rules after it play
    no part in what is done with the track; they are not even tested. *)
Theorem first_match_shadows_later_rules
    (regexTest : string -> string -> string -> result bool)
    (regexMatchAll : string -> string -> string -> result (list (list (option string))))
    (track : Stream) (rule : value) (later : list value) (st : State) :
  trackMatches regexTest track (prop rule "match") = Ok true ->
  processTrack regexTest regexMatchAll (rule :: later) st track
  = processTrack regexTest regexMatchAll [rule] st track.
Proof.
  intro Hm. unfold processTrack. cbn [foldM]. unfold applyRule at 1 3.
  rewrite Hm. cbn [bind negb].
  destruct (strictEq (prop (prop rule "operations") "length") (VNum 0)).
  - cbn [bind]. rewrite applyRules_matched. reflexivity.
  - destruct (foldM (applyOperation regexMatchAll track rule) _ st) as [st'|];
      cbn [bind]; [|reflexivity].
    rewrite applyRules_matched. reflexivity.
Qed.

Lemma first_match_shadows_later_rules_witness :
  processTrack Examples.wordTest Examples.wordMatchAll
    (Examples.dropAll ++ Examples.eac3ToAc3) initialState Examples.eac3Track
  = processTrack Examples.wordTest Examples.wordMatchAll
      Examples.dropAll initialState Examples.eac3Track.
Proof.
  exact (first_match_shadows_later_rules Examples.wordTest Examples.wordMatchAll
           Examples.eac3Track (hd VNull Examples.dropAll) Examples.eac3ToAc3
           initialState eq_refl).
Defined.

(** ** The title expander: [getNewTrackTitle] *)

Lemma includes_char (g : ascii) (s : string) :
  Js.includes s (String g EmptyString) = hasChar g s.
Proof.
  induction s as [|d rest IH]; [reflexivity|].
  cbn [Js.includes hasChar]. rewrite prefix_cons, prefix_nil, andb_true_r.
  destruct (Ascii.eqb g d); [reflexivity | exact IH].
Qed.

Lemma hasChar_app (g : ascii) (a b : string) :
  hasChar g (a ++ b) = orb (hasChar g a) (hasChar g b).
Proof.
  induction a as [|d a IH]; [reflexivity|].
  cbn [append hasChar]. rewrite IH. apply orb_assoc.
Qed.

Lemma getSubstitution_plain (matched pre post templ : string) :
  hasChar "$" templ = false -> Js.getSubstitution matched pre post templ = templ.
Proof.
  induction templ as [|c t IH]; [reflexivity|].
  cbn [hasChar Js.getSubstitution]. rewrite (Ascii.eqb_sym c "$").
  destruct (Ascii.eqb "$" c); cbn [orb]; [discriminate|].
  intro H. rewrite (IH H). reflexivity.
Qed.

(** Replacing a one-character text by a text free of [$] replaces every
    occurrence of the character. *)
Lemma replaceScan_char (f : ascii) (repl : string) :
  hasChar "$" repl = false ->
  forall s pre,
    Js.replaceScan (String f EmptyString) repl pre s 0 = substChar f repl s.
Proof.
  intro Hplain. induction s as [|d rest IH]; intro pre; [reflexivity|].
  cbn [Js.replaceScan substChar String.length].
  rewrite prefix_cons, prefix_nil, andb_true_r.
  destruct (Ascii.eqb f d).
  - rewrite getSubstitution_plain by exact Hplain. rewrite IH. reflexivity.
  - rewrite IH. reflexivity.
Qed.

Lemma replaceAll_char (f : ascii) (repl s : string) :
  hasChar "$" repl = false ->
  Js.replaceAll s (String f EmptyString) repl = substChar f repl s.
Proof. intro Hplain. apply replaceScan_char, Hplain. Qed.

Lemma substChar_removes (f : ascii) (repl s : string) :
  hasChar f repl = false -> hasChar f (substChar f repl s) = false.
Proof.
  intro Hr. induction s as [|d rest IH]; [reflexivity|].
  cbn [substChar]. rewrite hasChar_app, IH, orb_false_r.
  destruct (Ascii.eqb f d) eqn:E; [exact Hr|].
  cbn [hasChar]. rewrite E. reflexivity.
Qed.

Lemma substChar_keeps_out (f g : ascii) (repl s : string) :
  hasChar g repl = false -> hasChar g s = false ->
  hasChar g (substChar f repl s) = false.
Proof.
  intros Hr. induction s as [|d rest IH]; [reflexivity|].
  cbn [substChar hasChar]. intro H. apply orb_false_elim in H as [Hd Hrest].
  rewrite hasChar_app, (IH Hrest), orb_false_r.
  destruct (Ascii.eqb f d); [exact Hr|].
  cbn [hasChar]. rewrite Hd. reflexivity.
Qed.

Lemma sanitize_clean (title : string) :
  Js.includes (sanitize title) "," = false
  /\ Js.includes (sanitize title) dquote = false.
Proof.
  unfold sanitize, dquote.
  rewrite (replaceAll_char "," "‚" title) by reflexivity.
  rewrite (replaceAll_char (ascii_of_nat 34) "″") by reflexivity.
  rewrite !includes_char. split.
  - apply substChar_keeps_out; [reflexivity|].
    apply substChar_removes. reflexivity.
  - apply substChar_removes. reflexivity.
Qed.

Lemma getNewTrackTitle_sanitized
    (regexMatchAll : string -> string -> string -> result (list (list (option string))))
    (track : Stream) (matchTitle operation : value) (bitrate : option value) (title : string) :
  getNewTrackTitle regexMatchAll track matchTitle operation bitrate = Ok title ->
  exists raw, title = sanitize raw.
Proof.
  unfold getNewTrackTitle, sanitize.
  match goal with |- context [bind ?m _] => destruct m as [t0|] end;
    cbn [bind]; [|discriminate].
  match goal with |- context [bind ?m _] => destruct m as [codecName|] end;
    cbn [bind]; [|discriminate].
  intro H. injection H as <-. eexists. reflexivity.
Qed.

(** Every title the expander returns is free of commas and of double
    quotes, whatever the template, the track's tags and the capture groups
    hold. *)
Theorem title_has_no_comma_nor_quote
    (regexMatchAll : string -> string -> string -> result (list (list (option string))))
    (track : Stream) (matchTitle operation : value) (bitrate : option value) (title : string) :
  getNewTrackTitle regexMatchAll track matchTitle operation bitrate = Ok title ->
  Js.includes title "," = false /\ Js.includes title dquote = false.
Proof.
  intro H. destruct (getNewTrackTitle_sanitized _ _ _ _ _ _ H) as [raw ->].
  apply sanitize_clean.
Qed.

Lemma title_has_no_comma_nor_quote_witness :
  Js.includes "a‚ ″b″" "," = false /\ Js.includes "a‚ ″b″" dquote = false.
Proof.
  refine (title_has_no_comma_nor_quote Examples.wordMatchAll Examples.stereoAac
            VUndefined
            (VObj [("title", VStr ("a, " ++ dquote ++ "b" ++ dquote))]) None _ _).
  vm_compute. reflexivity.
Defined.

Lemma substituteMatches_no_brace (matches : list (list (option string))) (t : string) :
  Js.includes t "{" = false -> substituteMatches t matches = t.
Proof.
  intro H. unfold substituteMatches.
  induction matches as [|m rest IH]; cbn [fold_left]; [reflexivity|].
  rewrite substituteGroups_no_brace by exact H. exact IH.
Qed.



(** ** The validator: what it accepts, and what it reports *)

(** A document whose rules are all well formed is accepted whole: the
    validator returns every rule, in order, with its title pattern
    normalised. *)
Theorem validator_accepts_well_formed (rules : list value) :
  forallb wellFormedRule rules = true ->
  Validator.validateTranscodeRules (Validator.Parsed (VArr rules))
  = inr (map Validator.normalizePattern rules).
Proof.
  intro Hwf. cbn [Validator.validateTranscodeRules isArray negb items].
  pose proof (validateRules_spec rules 0) as Hs. rewrite Hwf in Hs. exact Hs.
Qed.

Lemma validator_accepts_well_formed_witness :
  Validator.validateTranscodeRules (Validator.Parsed (VArr Examples.mixedRules))
  = inr (map Validator.normalizePattern Examples.mixedRules).
Proof. exact (validator_accepts_well_formed Examples.mixedRules eq_refl). Defined.

Lemma validateRules_app (good rest : list value) :
  forallb wellFormedRule good = true ->
  forall i,
    Validator.validateRules i (good ++ rest)
    = match Validator.validateRules (i + List.length good) rest with
      | inl message => inl message
      | inr rest' => inr (map Validator.normalizePattern good ++ rest')%list
      end.
Proof.
  induction good as [|rule good IH]; intros Hwf i.
  - cbn [app List.length map]. rewrite Nat.add_0_r.
    destruct (Validator.validateRules i rest); reflexivity.
  - cbn [forallb] in Hwf. apply andb_prop in Hwf as [Hrule Hgood].
    cbn [app Validator.validateRules List.length map].
    pose proof (validateRule_spec i rule) as Hr. rewrite Hrule in Hr. rewrite Hr.
    rewrite (IH Hgood (S i)). rewrite Nat.add_succ_r. cbn [Nat.add].
    destruct (Validator.validateRules (S (i + List.length good)) rest); reflexivity.
Qed.

(** The validator reports the first rule that is ill formed, under that
    rule's index, and does not look at the rules after it; a rule that is
    not an object is reported as such with its position. *)
Theorem first_ill_formed_rule_is_reported (good : list value) (bad : value)
    (rest : list value) :
  forallb wellFormedRule good = true ->
  wellFormedRule bad = false ->
  exists message,
    Validator.validateRule (List.length good) bad = inl message
    /\ Validator.validateTranscodeRules (Validator.Parsed (VArr (good ++ bad :: rest)))
       = inl message
    /\ (Validator.isObject bad = false ->
        message = "Rule at index " ++ Js.natToString (List.length good)
                  ++ " is not an object.").
Proof.
  intros Hgood Hbad.
  pose proof (validateRule_spec (List.length good) bad) as Hr. rewrite Hbad in Hr.
  destruct Hr as [message Hr]. exists message. split; [exact Hr|]. split.
  - cbn [Validator.validateTranscodeRules isArray negb items].
    rewrite (validateRules_app good (bad :: rest) Hgood 0).
    cbn [Nat.add Validator.validateRules]. rewrite Hr. reflexivity.
  - intro Hobj. unfold Validator.validateRule, Validator.validateMatch in Hr.
    rewrite Hobj in Hr. cbn [negb] in Hr. injection Hr as <-. reflexivity.
Qed.

Lemma first_ill_formed_rule_is_reported_witness :
  Validator.validateTranscodeRules
    (Validator.Parsed (VArr (Examples.mixedRules ++ VNum 7 :: Examples.dropAll)))
  = inl "Rule at index 2 is not an object.".
Proof.
  destruct (first_ill_formed_rule_is_reported Examples.mixedRules (VNum 7)
              Examples.dropAll eq_refl eq_refl) as (message & _ & Hv & Hmsg).
  rewrite Hv, (Hmsg eq_refl). reflexivity.
Defined.

(** A rule object with an own property named [hasOwnProperty] is rejected
    whatever else it holds: the validator's first test on it calls that
    property, the call raises, and the validator returns the message of
    its [catch] for the whole document. *)
Theorem shadowed_rule_is_rejected (good : list value) (bad : value)
    (rest : list value) :
  forallb wellFormedRule good = true ->
  Validator.isObject bad = true ->
  shadowed bad = true ->
  wellFormedRule bad = false
  /\ Validator.validateTranscodeRules (Validator.Parsed (VArr (good ++ bad :: rest)))
     = inl "Invalid JSON: rule.hasOwnProperty is not a function".
Proof.
  intros Hgood Hobj Hshadow. split.
  - unfold wellFormedRule, callable. rewrite Hobj, Hshadow. reflexivity.
  - cbn [Validator.validateTranscodeRules isArray negb items].
    rewrite (validateRules_app good (bad :: rest) Hgood 0).
    cbn [Nat.add Validator.validateRules].
    unfold Validator.validateRule, Validator.validateMatch.
    rewrite Hobj, Hshadow. reflexivity.
Qed.

Lemma shadowed_rule_is_rejected_witness :
  Validator.validateTranscodeRules
    (Validator.Parsed
       (VArr (Examples.dropAll
                ++ VObj [("hasOwnProperty", VNum 1); ("match", VObj [("codecs", VStr "*")]);
                         ("operations", VArr [])] :: Examples.mixedRules)))
  = inl "Invalid JSON: rule.hasOwnProperty is not a function".
Proof.
  exact (proj2 (shadowed_rule_is_rejected Examples.dropAll
                  (VObj [("hasOwnProperty", VNum 1); ("match", VObj [("codecs", VStr "*")]);
                         ("operations", VArr [])])
                  Examples.mixedRules eq_refl eq_refl eq_refl)).
Defined.

(** Normalisation touches nothing but the title pattern: in a rule with a
    title match, the pattern has every doubled backslash made single (and
    is unchanged when it has none), and every other property of the title
    match, of the match and of the rule reads as before. *)
Theorem normalizePattern_only_pattern
    (fields matchFields titleFields : list (string * value)) (pattern : string) :
  lookup "match" fields = Some (VObj matchFields) ->
  lookup "title" matchFields = Some (VObj titleFields) ->
  lookup "pattern" titleFields = Some (VStr pattern) ->
  let rule' := Validator.normalizePattern (VObj fields) in
  prop (prop (prop rule' "match") "title") "pattern"
  = VStr (Js.replaceAll pattern (backslash ++ backslash) backslash)
  /\ (Js.includes pattern (backslash ++ backslash) = false ->
      prop (prop (prop rule' "match") "title") "pattern" = VStr pattern)
  /\ (forall k, String.eqb k "pattern" = false ->
        prop (prop (prop rule' "match") "title") k = prop (VObj titleFields) k)
  /\ (forall k, String.eqb k "title" = false ->
        prop (prop rule' "match") k = prop (VObj matchFields) k)
  /\ (forall k, String.eqb k "match" = false ->
        prop rule' k = prop (VObj fields) k).
Proof.
  intros Hm Ht Hp rule'.
  assert (Hrule : rule'
                  = VObj (setField "match"
                            (VObj (setField "title"
                                     (VObj (setField "pattern"
                                              (VStr (Js.replaceAll pattern
                                                       (backslash ++ backslash) backslash))
                                              titleFields))
                                     matchFields))
                            fields)).
  { assert (Hpm : prop (VObj fields) "match" = VObj matchFields)
      by (unfold prop; rewrite Hm; reflexivity).
    assert (Hpt : prop (VObj matchFields) "title" = VObj titleFields)
      by (unfold prop; rewrite Ht; reflexivity).
    assert (Hpp : prop (VObj titleFields) "pattern" = VStr pattern)
      by (unfold prop; rewrite Hp; reflexivity).
    assert (Hh : hasOwnProperty (VObj matchFields) "title" = true)
      by (unfold hasOwnProperty; rewrite Ht; reflexivity).
    unfold rule', Validator.normalizePattern.
    rewrite Hpm, Hh, Hpt, Hpp. reflexivity. }
  rewrite Hrule.
  assert (Hpat : prop (prop (prop (VObj (setField "match"
                   (VObj (setField "title"
                      (VObj (setField "pattern"
                         (VStr (Js.replaceAll pattern (backslash ++ backslash) backslash))
                         titleFields)) matchFields)) fields)) "match") "title") "pattern"
                 = VStr (Js.replaceAll pattern (backslash ++ backslash) backslash)).
  { repeat (rewrite prop_setField; cbn [String.eqb Ascii.eqb Bool.eqb]).
    reflexivity. }
  split; [exact Hpat|]. split; [|split; [|split]].
  - intro Habsent. rewrite Hpat, replaceAll_absent by exact Habsent. reflexivity.
  - intros k Hk.
    do 2 (rewrite prop_setField; cbn [String.eqb Ascii.eqb Bool.eqb]).
    rewrite prop_setField, Hk. reflexivity.
  - intros k Hk. rewrite prop_setField. cbn [String.eqb Ascii.eqb Bool.eqb].
    rewrite prop_setField, Hk. reflexivity.
  - intros k Hk. rewrite prop_setField, Hk. reflexivity.
Qed.

Lemma normalizePattern_only_pattern_witness :
  prop (prop (prop (Validator.normalizePattern
                      (Examples.rule [("codecs", VStr "*");
                                      ("title", VObj [("pattern", VStr "(\\d+)")])] []))
                "match") "title") "pattern"
  = VStr "(\d+)".
Proof.
  exact (proj1 (normalizePattern_only_pattern
                  [("match", VObj [("codecs", VStr "*");
                                   ("title", VObj [("pattern", VStr "(\\d+)")])]);
                   ("operations", VArr [])]
                  [("codecs", VStr "*"); ("title", VObj [("pattern", VStr "(\\d+)")])]
                  [("pattern", VStr "(\\d+)")] "(\\d+)" eq_refl eq_refl eq_refl)).
Defined.

(** ** The plugin as a whole *)

Section Whole.
Variable regexTest : string -> string -> string -> result bool.
Variable regexMatchAll :
  string -> string -> string -> result (list (list (option string))).

(** A dry run never asks for the file to be processed: whatever the rules
    and the tracks, a response returned under [dryRun = "true"] has
    [processFile] false and no command preset (none, or the empty text). *)
Theorem dry_run_never_processes (file : File) (inputs : Inputs) (response : Response) :
  dryRun inputs = "true" ->
  plugin regexTest regexMatchAll file inputs = Ok response ->
  processFile response = false
  /\ (preset response = None \/ preset response = Some EmptyString).
Proof.
  intros Hdry. unfold plugin. rewrite Hdry.
  change (String.eqb "true" "true") with true. cbv iota.
  destruct (Validator.validateTranscodeRules (transcodeRules inputs)) as [msg|rules];
    [intro H; injection H as <-; split; [reflexivity | left; reflexivity]|].
  destruct (pluginWatermark rules) as [watermark|]; cbn [bind]; [|discriminate].
  destruct (ffProbeData file) as [probe|];
    [|intro H; injection H as <-; split; [reflexivity | left; reflexivity]].
  destruct (streams probe) as [allStreams|];
    [|intro H; injection H as <-; split; [reflexivity | left; reflexivity]].
  destruct (Js.includes _ _);
    [intro H; injection H as <-; split; [reflexivity | left; reflexivity]|].
  destruct (Nat.eqb _ 0);
    [intro H; injection H as <-; split; [reflexivity | left; reflexivity]|].
  destruct (processTracks _ _ _ _) as [st|]; cbn [bind]; [|discriminate].
  intro H. injection H as <-. split; [reflexivity | right; reflexivity].
Qed.

(** A file with no audio track (no probe data, no stream list, or no
    stream of type audio) gets the response as created on entry, when the
    rule document is invalid or the token of its rules can be computed; the
    token is computed before the file is looked at, and a run on valid
    rules whose token cannot be computed raises. *)
Theorem no_audio_track_nothing_to_do (file : File) (inputs : Inputs) :
  audioTracksOf file = [] ->
  plugin regexTest regexMatchAll file inputs
  = match Validator.validateTranscodeRules (transcodeRules inputs) with
    | inl _ => Ok (initialResponse file)
    | inr rules =>
        match btoa (stringify (VArr rules)) with
        | Ok _ => Ok (initialResponse file)
        | Throws message => Throws message
        end
    end.
Proof.
  unfold audioTracksOf, plugin, pluginWatermark. intro Hnone.
  destruct (Validator.validateTranscodeRules (transcodeRules inputs)) as [msg|rules];
    [reflexivity|].
  destruct (btoa (stringify (VArr rules))) as [encoded|message]; cbn [bind];
    [|reflexivity].
  destruct (ffProbeData file) as [probe|]; [|reflexivity].
  destruct (streams probe) as [allStreams|]; [|reflexivity].
  rewrite Hnone. destruct (Js.includes _ _); reflexivity.
Qed.

End Whole.

Lemma dry_run_never_processes_witness :
  exists response,
    plugin Examples.wordTest Examples.wordMatchAll
      (Examples.fileOf [Examples.eac3Track] None)
      {| transcodeRules := Validator.Parsed (VArr Examples.eac3ToAc3);
         dryRun := "true" |} = Ok response
    /\ processFile response = false.
Proof.
  destruct (plugin Examples.wordTest Examples.wordMatchAll
              (Examples.fileOf [Examples.eac3Track] None)
              {| transcodeRules := Validator.Parsed (VArr Examples.eac3ToAc3);
                 dryRun := "true" |}) as [response|e] eqn:Hrun;
    [|vm_compute in Hrun; discriminate Hrun].
  exists response. split; [reflexivity|].
  exact (proj1 (dry_run_never_processes Examples.wordTest Examples.wordMatchAll
                  (Examples.fileOf [Examples.eac3Track] None)
                  {| transcodeRules := Validator.Parsed (VArr Examples.eac3ToAc3);
                     dryRun := "true" |}
                  response eq_refl Hrun)).
Defined.

Lemma no_audio_track_nothing_to_do_witness :
  plugin Examples.wordTest Examples.wordMatchAll
    {| container := "mkv"; ffProbeData := None |} (Examples.inputsOf Examples.dropAll)
  = Ok (initialResponse {| container := "mkv"; ffProbeData := None |})
  /\ plugin Examples.wordTest Examples.wordMatchAll
       {| container := "mkv"; ffProbeData := None |}
       (Examples.inputsOf Examples.doublePrimeTitle)
     = Throws "Invalid character".
Proof.
  split.
  - exact (no_audio_track_nothing_to_do Examples.wordTest Examples.wordMatchAll
             {| container := "mkv"; ffProbeData := None |}
             (Examples.inputsOf Examples.dropAll) eq_refl).
  - exact (no_audio_track_nothing_to_do Examples.wordTest Examples.wordMatchAll
             {| container := "mkv"; ffProbeData := None |}
             (Examples.inputsOf Examples.doublePrimeTitle) eq_refl).
Defined.

Section Changed.
Variable regexTest : string -> string -> string -> result bool.
Variable regexMatchAll :
  string -> string -> string -> result (list (list (option string))).

Lemma applyOperations_flag (track : Stream) (rule : value) (operations : list value) :
  forall st st',
    foldM (applyOperation regexMatchAll track rule) operations st = Ok st' ->
    requireTranscode st'
    = orb (requireTranscode st) (negb (Nat.eqb (List.length operations) 0)).
Proof.
  induction operations as [|op rest IH]; intros st st'; cbn [foldM].
  - intro H. injection H as <-. cbn. rewrite orb_false_r. reflexivity.
  - unfold applyOperation at 1.
    destruct (operationCommands _ _ _ _ _ _) as [cs|]; cbn [bind]; [|discriminate].
    intro H. apply IH in H. cbn [requireTranscode] in H. rewrite H.
    cbn. rewrite orb_true_r. reflexivity.
Qed.

Lemma processTrack_flag (rules : list value) (st st' : State) (track : Stream) :
  processTrack regexTest regexMatchAll rules st track = Ok st' ->
  exists oc,
    outcomeOf regexTest track rules = Ok oc
    /\ requireTranscode st' = orb (requireTranscode st) (isApplied oc).
Proof.
  unfold processTrack, outcomeOf.
  destruct (foldM (applyRule regexTest regexMatchAll track) rules (false, st))
    as [acc|] eqn:Eacc; cbn [bind]; [|discriminate].
  destruct (applyRules_spec _ _ _ _ _ _ Eacc) as (r & Hr & Hcase). rewrite Hr.
  cbn [bind]. destruct r as [rule|].
  - destruct Hcase as (_ & st1 & -> & Hops).
    intro H. injection H as <-. cbn [requireTranscode].
    eexists. split; [reflexivity|].
    rewrite (applyOperations_flag _ _ _ _ _ Hops).
    destruct (items (prop rule "operations")); reflexivity.
  - subst acc. intro H. injection H as <-. cbn [requireTranscode].
    exists VerbatimCopy. split; [reflexivity|]. cbn. rewrite orb_false_r. reflexivity.
Qed.

Lemma processTracks_flag (rules : list value) (tracks : list Stream)
    (outcomes : list outcome) :
  Forall2 (fun track oc => outcomeOf regexTest track rules = Ok oc) tracks outcomes ->
  forall st st',
    foldM (processTrack regexTest regexMatchAll rules) tracks st = Ok st' ->
    requireTranscode st' = orb (requireTranscode st) (existsb isApplied outcomes).
Proof.
  induction 1 as [|track oc tracks outcomes Hoc _ IH]; intros st st'; cbn [foldM].
  - intro H. injection H as <-. cbn. rewrite orb_false_r. reflexivity.
  - destruct (processTrack regexTest regexMatchAll rules st track) as [st1|] eqn:E1;
      cbn [bind]; [|discriminate].
    intro H. apply IH in H.
    destruct (processTrack_flag _ _ _ _ E1) as (oc' & Hoc' & Hflag).
    rewrite Hoc in Hoc'. injection Hoc' as <-.
    rewrite H, Hflag. cbn [existsb]. rewrite orb_assoc. reflexivity.
Qed.

(** When the plugin asks for the file to be processed: exactly when the
    run is not a dry run, the marker does not carry the token of the
    rules, and some audio track has a first matching rule with a non-empty
    operations list.  Drops and verbatim copies alone never do. *)
Theorem processFile_characterised (file : File) (inputs : Inputs)
    (rules : list value) (outcomes : list outcome) (response : Response) :
  Validator.validateTranscodeRules (transcodeRules inputs) = inr rules ->
  Forall2 (fun track oc => outcomeOf regexTest track rules = Ok oc)
    (audioTracksOf file) outcomes ->
  plugin regexTest regexMatchAll file inputs = Ok response ->
  processFile response
  = andb (negb (String.eqb (dryRun inputs) "true"))
      (andb (negb (alreadyProcessed file rules)) (existsb isApplied outcomes)).
Proof.
  intros Hv HF. unfold plugin, audioTracksOf, alreadyProcessed in *. rewrite Hv.
  destruct (pluginWatermark rules) as [watermark|]; cbn [bind]; [|discriminate].
  destruct (ffProbeData file) as [probe|].
  2:{ inversion HF. intro H. injection H as <-. cbn. rewrite andb_false_r. reflexivity. }
  destruct (streams probe) as [allStreams|].
  2:{ inversion HF. intro H. injection H as <-. cbn.
      rewrite !andb_false_r. reflexivity. }
  destruct (Js.includes _ _).
  { intro H. injection H as <-. cbn. rewrite andb_false_r. reflexivity. }
  destruct (filter _ allStreams) as [|track tracks] eqn:Ef.
  { inversion HF. intro H. injection H as <-. cbn. rewrite andb_false_r. reflexivity. }
  cbn [List.length Nat.eqb].
  destruct (processTracks _ _ _ _) as [st|] eqn:Erun; cbn [bind]; [|discriminate].
  pose proof (processTracks_flag _ _ _ HF _ _ Erun) as Hflag.
  cbn [initialState requireTranscode orb] in Hflag.
  intro H. injection H as <-.
  destruct (String.eqb (dryRun inputs) "true"); cbn [negb andb processFile];
    [reflexivity|].
  rewrite <- Hflag. destruct (requireTranscode st); reflexivity.
Qed.

Lemma applyRules_unmatched (track : Stream) (rules : list value) :
  firstMatching regexTest track rules = Ok None ->
  forall st,
    foldM (applyRule regexTest regexMatchAll track) rules (false, st) = Ok (false, st).
Proof.
  induction rules as [|rule rest IH]; cbn [firstMatching foldM]; [reflexivity|].
  unfold applyRule at 1.
  destruct (trackMatches regexTest track (prop rule "match")) as [[|]|];
    cbn [bind negb]; [discriminate | exact IH | discriminate].
Qed.

Lemma unmatched_tracks_from (rules : list value) (tracks : list Stream) :
  (forall track, In track tracks -> firstMatching regexTest track rules = Ok None) ->
  forall st,
    foldM (processTrack regexTest regexMatchAll rules) tracks st
    = Ok {| audioTracksCommands :=
              (audioTracksCommands st
                 ++ map (fun j => MapCopy (inputTrackIndex st + j) (outputTrackIndex st + j))
                      (seq 0 (List.length tracks)))%list;
            inputTrackIndex := inputTrackIndex st + List.length tracks;
            outputTrackIndex := outputTrackIndex st + List.length tracks;
            requireTranscode := requireTranscode st |}.
Proof.
  induction tracks as [|track rest IH]; intros Hnone st; cbn [foldM List.length seq map].
  - rewrite app_nil_r, !Nat.add_0_r. destruct st; reflexivity.
  - unfold processTrack at 1.
    rewrite (applyRules_unmatched track rules (Hnone track (or_introl eq_refl))).
    cbn [bind]. rewrite IH by (intros t Ht; apply Hnone; right; exact Ht).
    cbn [audioTracksCommands inputTrackIndex outputTrackIndex requireTranscode].
    rewrite <- seq_shift, map_map, <- app_assoc, !Nat.add_0_r.
    cbn [app]. f_equal. f_equal.
    + f_equal. f_equal. apply map_ext. intro j. f_equal; lia.
    + lia.
    + lia.
Qed.

(** A run in which no rule matches any track copies every track at the
    output index equal to its input index, in order, and marks nothing as
    changed. *)
Theorem unmatched_tracks_copied_in_place (rules : list value) (tracks : list Stream) :
  (forall track, In track tracks -> firstMatching regexTest track rules = Ok None) ->
  processTracks regexTest regexMatchAll rules tracks
  = Ok {| audioTracksCommands := verbatimPlan (List.length tracks);
          inputTrackIndex := List.length tracks;
          outputTrackIndex := List.length tracks;
          requireTranscode := false |}.
Proof.
  intro Hnone. unfold processTracks.
  rewrite (unmatched_tracks_from rules tracks Hnone initialState). reflexivity.
Qed.

End Changed.

Lemma processFile_characterised_witness :
  exists response,
    plugin Examples.wordTest Examples.wordMatchAll
      (Examples.fileOf Examples.threeTracks None)
      (Examples.inputsOf Examples.mixedRules) = Ok response
    /\ processFile response = true.
Proof.
  destruct (plugin Examples.wordTest Examples.wordMatchAll
              (Examples.fileOf Examples.threeTracks None)
              (Examples.inputsOf Examples.mixedRules)) as [response|e] eqn:Hrun;
    [|vm_compute in Hrun; discriminate Hrun].
  exists response. split; [reflexivity|].
  refine (processFile_characterised Examples.wordTest Examples.wordMatchAll
            (Examples.fileOf Examples.threeTracks None)
            (Examples.inputsOf Examples.mixedRules) Examples.mixedRules
            [Applied (hd VNull Examples.mixedRules)
               (items (prop (hd VNull Examples.mixedRules) "operations"));
             Dropped; VerbatimCopy]
            response eq_refl _ Hrun).
  repeat constructor.
Defined.

Lemma unmatched_tracks_copied_in_place_witness :
  processTracks Examples.wordTest Examples.wordMatchAll
    Examples.eac3ToAc3 [Examples.stereoAac; Examples.truehdTrack]
  = Ok {| audioTracksCommands := [MapCopy 0 0; MapCopy 1 1];
          inputTrackIndex := 2; outputTrackIndex := 2; requireTranscode := false |}.
Proof.
  refine (unmatched_tracks_copied_in_place Examples.wordTest Examples.wordMatchAll
            Examples.eac3ToAc3 [Examples.stereoAac; Examples.truehdTrack] _).
  intros track [<-|[<-|[]]]; reflexivity.
Defined.

(** ** Operations: ceilings and the safety override *)

Section Ceilings.
Variable regexMatchAll :
  string -> string -> string -> result (list (list (option string))).

Lemma titleCommands_titles (track : Stream) (rule body : value) (bitrate : option value)
    (o : nat) (cs : list instr) :
  titleCommands regexMatchAll track rule body bitrate o = Ok cs ->
  forall c, In c cs -> exists t, c = Title o t.
Proof.
  unfold titleCommands. destruct (truthy (prop body "title")).
  - destruct (getNewTrackTitle _ _ _ _ _) as [t|]; cbn [bind]; [|discriminate].
    intro H. injection H as <-. intros c [<-|[]]. eauto.
  - intro H. injection H as <-. intros c [].
Qed.

Lemma dispositionCommands_dispositions (body : value) (o : nat) :
  forall c, In c (dispositionCommands body o) -> exists f, c = Disposition o f.
Proof.
  unfold dispositionCommands. destruct (truthy (prop body "dispositions")).
  - intros c [<-|[]]. eauto.
  - intros c [].
Qed.

(** No operation emits a channel count or a bit rate above the ceiling of
    the codec it transcodes to (6 channels and 640000 bps for [ac3], 2
    channels and 320000 bps for [mp3]); such entries come from transcode
    operations only and carry the operation's output index. *)
Theorem emitted_values_within_ceiling (track : Stream) (rule operation : value)
    (i o : nat) (cs : list instr) :
  operationCommands regexMatchAll track rule operation i o = Ok cs ->
  (forall o' count, In (Channels o' count) cs ->
     o' = o
     /\ exists codec,
          prop (prop operation "transcode") "codec" = VStr codec
          /\ forall limit,
               codecChannelsLimits (targetCodecOf track codec) = Some limit ->
               count <= limit)
  /\ (forall o' bps, In (Bitrate o' bps) cs ->
        o' = o
        /\ exists codec,
             prop (prop operation "transcode") "codec" = VStr codec
             /\ forall limit,
                  codecBitrateLimits (targetCodecOf track codec) = Some limit ->
                  bps <= limit).
Proof.
  unfold operationCommands. destruct (truthy (prop operation "copy")).
  { destruct (titleCommands _ _ _ _ _ _) as [title|] eqn:Et; cbn [bind]; [|discriminate].
    intro H. injection H as <-.
    split; intros o' x Hin; exfalso;
      (destruct Hin as [Hin|Hin]; [discriminate Hin|];
       apply in_app_or in Hin as [Hin|Hin];
       [ destruct (titleCommands_titles _ _ _ _ _ _ Et _ Hin) as [t Heq];
         discriminate Heq
       | destruct (dispositionCommands_dispositions _ _ _ Hin) as [f Heq];
         discriminate Heq ]). }
  destruct (truthy (prop operation "transcode"));
    [|intro H; injection H as <-; split; intros o' x []].
  destruct (prop (prop operation "transcode") "codec") as [| | | |codec| |];
    cbn [bind]; try discriminate.
  fold (targetCodecOf track codec).
  destruct (titleCommands _ _ _ _ _ _) as [title|] eqn:Et; cbn [bind]; [|discriminate].
  intro H. injection H as <-.
  split; intros o' x Hin;
    (destruct Hin as [Hin|Hin]; [discriminate Hin|]);
    (destruct Hin as [Hin|Hin]; [discriminate Hin|]);
    apply in_app_or in Hin as [Hin|Hin].
  - (* the channels entry *)
    match type of Hin with
    | In _ (if ?b then _ else _) => destruct b; [|destruct Hin]
    end.
    destruct Hin as [Hin|[]]. injection Hin as <- <-.
    split; [reflexivity|]. exists codec. split; [reflexivity|].
    intros limit Hl. rewrite Hl. unfold exceeds.
    destruct (limit <? _) eqn:E; [lia | apply Z.ltb_ge in E; exact E].
  - exfalso. apply in_app_or in Hin as [Hin|Hin].
    + destruct (truthy (prop (prop operation "transcode") "bitrate"));
        [|destruct Hin].
      destruct Hin as [Hin|[]]. discriminate Hin.
    + apply in_app_or in Hin as [Hin|Hin];
        [destruct (titleCommands_titles _ _ _ _ _ _ Et _ Hin) as [t Heq];
         discriminate Heq|].
      apply in_app_or in Hin as [Hin|Hin];
        [destruct (dispositionCommands_dispositions _ _ _ Hin) as [f Heq];
         discriminate Heq|].
      destruct (truthy (prop (prop operation "transcode") "filters"));
        [destruct Hin as [Hin|[]]; discriminate Hin | destruct Hin].
  - exfalso.
    match type of Hin with
    | In _ (if ?b then _ else _) => destruct b; [|destruct Hin]
    end.
    destruct Hin as [Hin|[]]. discriminate Hin.
  - apply in_app_or in Hin as [Hin|Hin].
    + (* the bitrate entry *)
      destruct (truthy (prop (prop operation "transcode") "bitrate"));
        [|destruct Hin].
      destruct Hin as [Hin|[]]. injection Hin as <- <-.
      split; [reflexivity|]. exists codec. split; [reflexivity|].
      intros limit Hl. rewrite Hl. unfold exceeds.
      destruct (limit <? _) eqn:E; [lia | apply Z.ltb_ge in E; exact E].
    + exfalso. apply in_app_or in Hin as [Hin|Hin];
        [destruct (titleCommands_titles _ _ _ _ _ _ Et _ Hin) as [t Heq];
         discriminate Heq|].
      apply in_app_or in Hin as [Hin|Hin];
        [destruct (dispositionCommands_dispositions _ _ _ Hin) as [f Heq];
         discriminate Heq|].
      destruct (truthy (prop (prop operation "transcode") "filters"));
        [destruct Hin as [Hin|[]]; discriminate Hin | destruct Hin].
Qed.

End Ceilings.

Lemma emitted_values_within_ceiling_witness :
  exists cs,
    operationCommands Examples.wordMatchAll Examples.truehdTrack
      (hd VNull Examples.truehdToAc3)
      (VObj [("transcode", VObj [("codec", VStr "ac3"); ("channels", VNum 8);
                                 ("bitrate", VNum 768000)])]) 0 0 = Ok cs
    /\ In (Channels 0 6) cs
    /\ forall o' count, In (Channels o' count) cs -> count <= 6.
Proof.
  destruct (operationCommands Examples.wordMatchAll Examples.truehdTrack
              (hd VNull Examples.truehdToAc3)
              (VObj [("transcode", VObj [("codec", VStr "ac3"); ("channels", VNum 8);
                                         ("bitrate", VNum 768000)])]) 0 0)
    as [cs|e] eqn:Hrun; [|vm_compute in Hrun; discriminate Hrun].
  exists cs. split; [reflexivity|]. split.
  - vm_compute in Hrun. injection Hrun as <-. right. right. left. reflexivity.
  - intros o' count Hin.
    destruct (proj1 (emitted_values_within_ceiling Examples.wordMatchAll
                       Examples.truehdTrack (hd VNull Examples.truehdToAc3)
                       (VObj [("transcode",
                               VObj [("codec", VStr "ac3"); ("channels", VNum 8);
                                     ("bitrate", VNum 768000)])]) 0 0 cs Hrun)
                o' count Hin) as (_ & codec & Hcodec & Hbound).
    injection Hcodec as <-. apply Hbound. reflexivity.
Defined.

(** The safety override: transcoding a track of more than six channels to
    AAC (in any letter case) with no explicit channel count emits a channel
    entry of 8, whatever the source count is. *)
Theorem aac_forces_eight_channels
    (regexMatchAll : string -> string -> string -> result (list (list (option string))))
    (track : Stream) (rule operation : value) (codec : string)
    (i o : nat) (cs : list instr) :
  truthy (prop operation "copy") = false ->
  truthy (prop operation "transcode") = true ->
  prop (prop operation "transcode") "codec" = VStr codec ->
  Js.toLowerCase (targetCodecOf track codec) = "aac" ->
  6 < channels track ->
  truthy (prop (prop operation "transcode") "channels") = false ->
  operationCommands regexMatchAll track rule operation i o = Ok cs ->
  In (Channels o 8) cs.
Proof.
  intros Hcopy Htrans Hcodec Haac Hmany Hnone. unfold operationCommands.
  rewrite Hcopy, Htrans, Hcodec. cbn [bind]. fold (targetCodecOf track codec).
  rewrite Haac, Hnone. apply Z.ltb_lt in Hmany. rewrite Hmany.
  change (String.eqb "aac" "aac") with true. cbn [andb negb orb].
  assert (Hlimit : codecChannelsLimits (targetCodecOf track codec) = None).
  { unfold codecChannelsLimits.
    destruct (String.eqb_spec (targetCodecOf track codec) "ac3") as [E|_];
      [rewrite E in Haac; discriminate Haac|].
    destruct (String.eqb_spec (targetCodecOf track codec) "mp3") as [E|_];
      [rewrite E in Haac; discriminate Haac | reflexivity]. }
  rewrite Hlimit. cbn [exceeds orb].
  rewrite !orb_true_r.
  destruct (titleCommands _ _ _ _ _ _) as [title|]; cbn [bind]; [|discriminate].
  intro H. injection H as <-. right. right. left. reflexivity.
Qed.

Lemma aac_forces_eight_channels_witness :
  In (Channels 0 8)
    [Map 0; Codec 0 "AAC"; Channels 0 8].
Proof.
  exact (aac_forces_eight_channels Examples.wordMatchAll
           (Examples.audio "truehd" 7 None None) VNull
           (VObj [("transcode", VObj [("codec", VStr "AAC")])]) "AAC" 0 0
           [Map 0; Codec 0 "AAC"; Channels 0 8]
           eq_refl eq_refl eq_refl eq_refl eq_refl eq_refl eq_refl).
Defined.

(** ** Subtitles *)

Lemma subtitleLoop_unnamed (subtitleStreams : list Stream) :
  (forall s, In s subtitleStreams ->
     codec_name s = EmptyString \/ codec_name s = "none") ->
  forall idx, subtitleLoop idx subtitleStreams = EmptyString.
Proof.
  induction subtitleStreams as [|s rest IH]; intros Hall idx; [reflexivity|].
  cbn [subtitleLoop]. rewrite IH by (intros s' Hs'; apply Hall; right; exact Hs').
  destruct (Hall s (or_introl eq_refl)) as [-> | ->]; reflexivity.
Qed.

(** When no subtitle stream has an identifiable codec (none at all, or
    each with a missing name or the name [none]), the subtitle part of the
    preset is the suppression [-sn]. *)
Theorem subtitles_suppressed_when_none_usable (allStreams : list Stream) :
  (forall s, In s allStreams -> codec_type s = "subtitle" ->
     codec_name s = EmptyString \/ codec_name s = "none") ->
  subtitleCommands allStreams = "-sn ".
Proof.
  intro Hall. unfold subtitleCommands. rewrite subtitleLoop_unnamed; [reflexivity|].
  intros s Hs. apply filter_In in Hs as [Hin Htype].
  apply Hall; [exact Hin|]. apply String.eqb_eq, Htype.
Qed.

Lemma subtitles_suppressed_when_none_usable_witness :
  subtitleCommands
    [Examples.stereoAac;
     {| index := 2; codec_type := "subtitle"; codec_name := "none"; channels := 0;
        channel_layout := None; bit_rate := None; tag_title := None;
        tag_language := None; disposition := [] |}]
  = "-sn ".
Proof.
  refine (subtitles_suppressed_when_none_usable _ _).
  intros s [<-|[<-|[]]] Ht; [discriminate Ht | right; reflexivity].
Defined.

(** ** A rule the validator accepts and the pass raises on *)

(** A selector array whose first element is a number passes validation,
    and the pass then raises on the first track that reaches the selector:
    the type of the elements of selector arrays is not validated. *)
Theorem numeric_selector_element_raises
    (regexTest : string -> string -> string -> result bool)
    (regexMatchAll : string -> string -> string -> result (list (list (option string))))
    (n : Z) (conditions operations later : list value)
    (track : Stream) (tracks : list Stream) :
  forallb wellFormedOperation operations = true ->
  let rule :=
    Examples.rule [("codecs", VStr "*"); ("channels", VArr (VNum n :: conditions))]
      operations in
  forallb wellFormedRule later = true ->
  Validator.validateTranscodeRules (Validator.Parsed (VArr (rule :: later)))
  = inr (rule :: map Validator.normalizePattern later)
  /\ processTracks regexTest regexMatchAll
       (rule :: map Validator.normalizePattern later) (track :: tracks)
     = Throws "condition.startsWith is not a function".
Proof.
  intros Hops rule Hlater. split.
  - assert (Hwf : forallb wellFormedRule (rule :: later) = true).
    { cbn [forallb]. rewrite Hlater, andb_true_r.
      unfold wellFormedRule, rule, Examples.rule.
      change (items (prop (VObj [("match", VObj [("codecs", VStr "*");
                                 ("channels", VArr (VNum n :: conditions))]);
                                 ("operations", VArr operations)]) "operations"))
        with operations.
      rewrite Hops. reflexivity. }
    cbn [Validator.validateTranscodeRules isArray negb items].
    pose proof (validateRules_spec (rule :: later) 0) as Hs.
    rewrite Hwf in Hs. rewrite Hs. reflexivity.
  - reflexivity.
Qed.

Lemma numeric_selector_element_raises_witness :
  processTracks Examples.wordTest Examples.wordMatchAll
    [Examples.rule [("codecs", VStr "*"); ("channels", VArr [VNum 6])] []]
    [Examples.stereoAac]
  = Throws "condition.startsWith is not a function".
Proof.
  exact (proj2 (numeric_selector_element_raises Examples.wordTest Examples.wordMatchAll
                  6 [] [] [] Examples.stereoAac [] eq_refl eq_refl)).
Defined.

(** ** More on selectors and operations *)

(** The catch-all rule: a match that has the wildcard codec selector and
    no other selector matches every track, and consults no regular
    expression. *)
Theorem wildcard_alone_matches_every_track
    (regexTest : string -> string -> string -> result bool)
    (track : Stream) (matchRule : value) :
  prop matchRule "codecs" = VStr "*" ->
  (forall k, In k ["channels"; "bitrate"; "languages"; "dispositions"; "title"] ->
     prop matchRule k = VUndefined) ->
  trackMatches regexTest track matchRule = Ok true.
Proof.
  intros Hcodecs Hnone. unfold trackMatches.
  rewrite Hcodecs, (Hnone "channels"), (Hnone "bitrate"), (Hnone "languages"),
    (Hnone "dispositions"), (Hnone "title") by (cbn [In]; tauto).
  reflexivity.
Qed.

Lemma wildcard_alone_matches_every_track_witness :
  trackMatches Examples.wordTest Examples.titledTrack (VObj [("codecs", VStr "*")])
  = Ok true.
Proof.
  refine (wildcard_alone_matches_every_track Examples.wordTest Examples.titledTrack
            (VObj [("codecs", VStr "*")]) eq_refl _).
  intros k [<-|[<-|[<-|[<-|[<-|[]]]]]]; reflexivity.
Defined.

(** A bit rate entry is emitted only for a transcode that gives an
    explicit, non-zero bit rate: an operation without one emits no bit rate
    entry, whatever the bit rate of the source and the ceiling of the
    target codec are. *)
Theorem no_bitrate_entry_unless_explicit
    (regexMatchAll : string -> string -> string -> result (list (list (option string))))
    (track : Stream) (rule operation : value) (i o : nat) (cs : list instr) :
  truthy (prop (prop operation "transcode") "bitrate") = false ->
  operationCommands regexMatchAll track rule operation i o = Ok cs ->
  forall o' bps, ~ In (Bitrate o' bps) cs.
Proof.
  intros Hnone. unfold operationCommands. rewrite Hnone.
  destruct (truthy (prop operation "copy")).
  { destruct (titleCommands _ _ _ _ _ _) as [title|] eqn:Et; cbn [bind]; [|discriminate].
    intro H. injection H as <-. intros o' bps Hin.
    destruct Hin as [Hin|Hin]; [discriminate Hin|].
    apply in_app_or in Hin as [Hin|Hin];
      [ destruct (titleCommands_titles _ _ _ _ _ _ _ Et _ Hin) as [t Heq];
        discriminate Heq
      | destruct (dispositionCommands_dispositions _ _ _ Hin) as [f Heq];
        discriminate Heq ]. }
  destruct (truthy (prop operation "transcode"));
    [|intro H; injection H as <-; intros o' bps []].
  destruct (prop (prop operation "transcode") "codec") as [| | | |codec| |];
    cbn [bind]; try discriminate.
  destruct (titleCommands _ _ _ _ _ _) as [title|] eqn:Et; cbn [bind]; [|discriminate].
  intro H. injection H as <-. intros o' bps Hin.
  destruct Hin as [Hin|Hin]; [discriminate Hin|].
  destruct Hin as [Hin|Hin]; [discriminate Hin|].
  apply in_app_or in Hin as [Hin|Hin].
  { match type of Hin with
    | In _ (if ?b then _ else _) => destruct b; [|destruct Hin]
    end.
    destruct Hin as [Hin|[]]. discriminate Hin. }
  cbn [app] in Hin.
  apply in_app_or in Hin as [Hin|Hin];
    [destruct (titleCommands_titles _ _ _ _ _ _ _ Et _ Hin) as [t Heq];
     discriminate Heq|].
  apply in_app_or in Hin as [Hin|Hin];
    [destruct (dispositionCommands_dispositions _ _ _ Hin) as [f Heq];
     discriminate Heq|].
  destruct (truthy (prop (prop operation "transcode") "filters"));
    [destruct Hin as [Hin|[]]; discriminate Hin | destruct Hin].
Qed.

Lemma no_bitrate_entry_unless_explicit_witness :
  ~ In (Bitrate 0 640000) [Map 0; Codec 0 "ac3"].
Proof.
  exact (no_bitrate_entry_unless_explicit Examples.wordMatchAll Examples.eac3Track
           (hd VNull Examples.eac3ToAc3)
           (VObj [("transcode", VObj [("codec", VStr "ac3")])]) 0 0
           [Map 0; Codec 0 "ac3"] eq_refl eq_refl 0%nat 640000).
Defined.
